(** * leptonai/cli/tuna.py: naming engine and model-state aggregation

    A shallow embedding of the helpers of [tuna.py] that derive resource
    names and join the storage listing, the job inventory and the
    deployment inventory into one record per model.

    Python [str] is a list of characters, a Python [set] of strings a
    [gset], the deployment index (a [dict] that is only looked up) a
    [gmap], and the returned models map (a [dict] whose insertion order
    is observable) an association list.  Calls to the remote API client
    may raise; they are threaded through a small error monad. *)

From Stdlib Require Import Ascii String ZArith List Lia Bool.
From stdpp Require Import base decidable option list gmap strings.

Open Scope list_scope.

(** ** Python strings *)

Abbreviation str := (list ascii) (only parsing).

Definition lit (s : string) : str := list_ascii_of_string s.

Definition len {A} (l : list A) : Z := Z.of_nat (length l).

(** [s[:k]]: a negative stop counts from the end and is clamped at 0. *)
Definition slice_to {A} (s : list A) (k : Z) : list A :=
  if (0 <=? k)%Z then take (Z.to_nat k) s
  else take (length s - Z.to_nat (- k))%nat s.

(** [s[k:]], with the same convention for a negative start. *)
Definition slice_from {A} (s : list A) (k : Z) : list A :=
  if (0 <=? k)%Z then drop (Z.to_nat k) s
  else drop (length s - Z.to_nat (- k))%nat s.

(** [s.startswith(p)] *)
Fixpoint starts_with (p s : str) : bool :=
  match p, s with
  | [], _ => true
  | _ :: _, [] => false
  | a :: p', b :: s' => if Ascii.eqb a b then starts_with p' s' else false
  end.

(** [sub in s] on strings: [sub] occurs at some offset of [s]. *)
Fixpoint contains (sub s : str) : bool :=
  starts_with sub s
  || match s with
     | [] => false
     | _ :: s' => contains sub s'
     end.

(** [s.rindex(c)] for a one-character [c]: the highest offset holding
    [c], or nothing where Python raises [ValueError]. *)
Fixpoint rindex (s : str) (c : ascii) : option nat :=
  match s with
  | [] => None
  | a :: s' =>
      match rindex s' c with
      | Some i => Some (S i)
      | None => if Ascii.eqb a c then Some 0%nat else None
      end
  end.

Definition digit_char (d : nat) : ascii :=
  ascii_of_nat (48 + d).

Fixpoint digits_acc (fuel n : nat) (acc : str) : str :=
  match fuel with
  | O => acc
  | S fuel' =>
      let acc' := digit_char (n mod 10) :: acc in
      if (n / 10 =? 0)%nat then acc' else digits_acc fuel' (n / 10) acc'
  end.

(** [str(n)] for a non-negative integer: its decimal digits. *)
Definition str_of_nat (n : nat) : str := digits_acc (S n) n [].

Definition ascii_letters : str :=
  lit "abcdefghijklmnopqrstuvwxyzABCDEFGHIJKLMNOPQRSTUVWXYZ".
Definition digits : str := lit "0123456789".

(** [random.choices(population, k=k)]: [k] independent draws with
    replacement.  The generator is injected as the stream [rng] of raw
    draws; draw [i] selects the element at offset [rng i] modulo the
    population size. *)
Definition random_choices (rng : nat -> nat) (population : str) (k : nat) : str :=
  map (fun i => nth (rng i mod length population)%nat population "a"%char)
      (seq 0 k).

(** The number of decimal digits of a counter below 1000. *)
Definition decimal_width (n : nat) : nat :=
  if (n <? 10)%nat then 1 else if (n <? 100)%nat then 2 else 3.

(** [int(s)] for a string of decimal digits, most significant first. *)
Fixpoint digits_value (s : str) (acc : nat) : nat :=
  match s with
  | [] => acc
  | a :: s' => digits_value s' (10 * acc + (nat_of_ascii a - 48))
  end.

(** ** Exceptions *)

Inductive exn :=
| ValueError
| RemoteError (msg : string).

Inductive result (A : Type) :=
| Ok (a : A)
| Raise (e : exn).
Arguments Ok {A} a.
Arguments Raise {A} e.

(** Sequencing: the first exception raised aborts what follows. *)
#[global] Instance result_bind : MBind result := λ A B k m,
  match m with
  | Ok a => k a
  | Raise e => Raise e
  end.

#[global] Instance result_ret : MRet result := λ A a, Ok a.

(** ** Data model *)

Inductive TunaModelState :=
| Training
| Ready
| Running
| TrainFailed
| Stopped
| Unknown.

Record TunaModel := {
  folder_name : str;
  tuna_model_state : TunaModelState;
  deployments : option (list str);
  job_name : option str
}.

(** Modelled from the spec: the enumeration [LeptonJobState] lives in
    [api/v1/types/job.py].  The aggregator tells apart Running, Starting
    and Failed; every other member is carried by its label. *)
Inductive LeptonJobState :=
| JobRunning
| JobStarting
| JobFailed
| JobOther (label : str).

(** Modelled from the spec: the enumeration [LeptonDeploymentState] lives
    in [api/v1/types/deployment.py].  The index tells apart Ready,
    Starting and Updating; every other member is carried by its label. *)
Inductive LeptonDeploymentState :=
| DepReady
| DepStarting
| DepUpdating
| DepOther (label : str).

(** The value of the string enumeration, as used in concatenations. *)
Definition deployment_state_value (s : LeptonDeploymentState) : str :=
  match s with
  | DepReady => lit "Ready"
  | DepStarting => lit "Starting"
  | DepUpdating => lit "Updating"
  | DepOther label => label
  end.

Record LeptonJob := {
  job_metadata_name : str;
  job_status_state : LeptonJobState
}.

Record LeptonDeployment := {
  deployment_metadata_name : str;
  deployment_status_state : LeptonDeploymentState
}.

Record DirInfo := {
  dir_info_name : str;
  dir_info_type : str
}.

(** The consumed surface of [APIClient]: every call may raise. *)
Record APIClient := {
  storage_check_exists : str -> result bool;
  storage_get_dir : str -> result (list DirInfo);
  job_list_all : result (list LeptonJob);
  deployment_list_all : result (list LeptonDeployment)
}.

(** ** Python dictionaries with observable insertion order *)

(** [d[k] = v]: an existing key keeps its position. *)
Fixpoint dict_set {V} (d : list (str * V)) (k : str) (v : V) : list (str * V) :=
  match d with
  | [] => [(k, v)]
  | (k', v') :: d' =>
      if decide (k' = k) then (k, v) :: d' else (k', v') :: dict_set d' k v
  end.

Fixpoint dict_get {V} (d : list (str * V)) (k : str) : option V :=
  match d with
  | [] => None
  | (k', v') :: d' => if decide (k' = k) then Some v' else dict_get d' k
  end.

(** ** Configuration *)

(** The constants that [tuna.py] imports from [leptonai/config.py].  Their
    values are not part of this file, so the development is parametric in
    them. *)
Class Config := {
  DEFAULT_TUNA_FOLDER : str;
  DEFAULT_TUNA_MODEL_PATH : str;
  TUNA_TRAIN_JOB_NAME_PREFIX : str;
  TUNA_DEPLOYMENT_NAME_PREFIX : str
}.

Section Tuna.

Context {cfg : Config}.

(** ** Naming engine *)

Definition _generate_job_name (model_name : str) : str :=
  TUNA_TRAIN_JOB_NAME_PREFIX ++ model_name.

Definition _generate_model_output_path (model_name : str) : str :=
  DEFAULT_TUNA_MODEL_PATH ++ lit "/" ++ model_name.

(** Line 140: [f"{base_name[:36 - (len(str(counter)) + 1)]}-{counter}"]. *)
Definition new_name (base_name : str) (counter : nat) : str :=
  slice_to base_name (36 - (len (str_of_nat counter) + 1))%Z
    ++ lit "-" ++ str_of_nat counter.

(** The [for i in range(0, 999)] loop of lines 138-143, with [n]
    iterations left; [None] when the loop runs to its end. *)
Fixpoint counter_loop (deployment_names_set : gset str) (base_name : str)
    (n counter : nat) : option str :=
  match n with
  | O => None
  | S n' =>
      if decide (new_name base_name counter ∈ deployment_names_set)
      then counter_loop deployment_names_set base_name n' (S counter)
      else Some (new_name base_name counter)
  end.

(** Line 136: the set of the names in use. *)
Definition deployment_names (deployments : list LeptonDeployment) : gset str :=
  list_to_set (map deployment_metadata_name deployments).

Definition _generate_model_deployment_name (client : APIClient)
    (rng : nat -> nat) (model_name : str) : result str :=
  deployments ← deployment_list_all client;
  let deployment_names_set := deployment_names deployments in
  let base_name := TUNA_DEPLOYMENT_NAME_PREFIX ++ model_name in
  match counter_loop deployment_names_set base_name 999 0 with
  | Some name => Ok name
  | None =>
      let random_string :=
        random_choices rng (ascii_letters ++ digits) 4 in
      Ok (slice_to (TUNA_DEPLOYMENT_NAME_PREFIX ++ model_name) 32%Z
            ++ random_string)
  end.

(** ** Deployment index *)

(** Lines 164-166: drop the deployment count, then the prefix.
    [rindex] raises [ValueError] on a name without a dash. *)
Definition shortened_model_name (deployment_name : str) : result str :=
  match rindex deployment_name "-" with
  | None => Raise ValueError
  | Some i =>
      Ok (slice_from (slice_to deployment_name (Z.of_nat i))
            (len TUNA_DEPLOYMENT_NAME_PREFIX))
  end.

(** Lines 167-171: membership in [Ready, Starting, Updating]. *)
Definition state_in_ready_starting_updating (s : LeptonDeploymentState) : bool :=
  match s with
  | DepReady | DepStarting | DepUpdating => true
  | DepOther _ => false
  end.

(** Line 186: the entry appended for a deployment. *)
Definition deployment_entry (deployment : LeptonDeployment) : str :=
  deployment_metadata_name deployment ++ lit " (" ++
    deployment_state_value (deployment_status_state deployment) ++ lit ")".

(** One iteration of the loop of lines 158-187.  A value of the index
    is the Python list [[state, entry, entry, ...]], kept as the pair
    of its head and its tail.  The key is present when line 185 appends
    to its list, so the update in place never misses. *)
Definition index_step (shortened_model_name_deployment_map :
      gmap str (TunaModelState * list str))
    (deployment : LeptonDeployment)
    : result (gmap str (TunaModelState * list str)) :=
  let m := shortened_model_name_deployment_map in
  let deployment_name := deployment_metadata_name deployment in
  if negb (contains TUNA_DEPLOYMENT_NAME_PREFIX deployment_name) then Ok m
  else
    key ← shortened_model_name deployment_name;
    let m1 :=
      if state_in_ready_starting_updating (deployment_status_state deployment)
      then
        match m !! key with
        | None => <[key := (Running, [])]> m
        | Some (_, entries) => <[key := (Running, entries)]> m
        end
      else
        match m !! key with
        | None => <[key := (Stopped, [])]> m
        | Some _ => m
        end in
    Ok (alter (λ v, (v.1, v.2 ++ [deployment_entry deployment])) key m1).

Fixpoint index_loop (deployments : list LeptonDeployment)
    (m : gmap str (TunaModelState * list str))
    : result (gmap str (TunaModelState * list str)) :=
  match deployments with
  | [] => Ok m
  | deployment :: rest =>
      m' ← index_step m deployment;
      index_loop rest m'
  end.

Definition _build_shortened_model_name_deployment_map (client : APIClient)
    : result (gmap str (TunaModelState * list str)) :=
  deployments ← deployment_list_all client;
  index_loop deployments ∅.

(** ** State aggregation *)

Definition _get_model_names (client : APIClient) : result (list str) :=
  dir_infos ← storage_get_dir client DEFAULT_TUNA_MODEL_PATH;
  Ok (map dir_info_name
        (filter (λ dir_info, dir_info_type dir_info = lit "dir") dir_infos)).

Definition _model_train_completed (client : APIClient) (model_name : str)
    : result bool :=
  dir_infos ←
    storage_get_dir client (DEFAULT_TUNA_MODEL_PATH ++ lit "/" ++ model_name);
  Ok (1 <? len dir_infos)%Z.

(** Lines 222-232: the names of the running and of the failed jobs. *)
Fixpoint job_sets (jobs : list LeptonJob) (running_job_set failed_job_set : gset str)
    : gset str * gset str :=
  match jobs with
  | [] => (running_job_set, failed_job_set)
  | job :: rest =>
      match job_status_state job with
      | JobRunning | JobStarting =>
          job_sets rest ({[job_metadata_name job]} ∪ running_job_set)
            failed_job_set
      | JobFailed =>
          job_sets rest running_job_set
            ({[job_metadata_name job]} ∪ failed_job_set)
      | JobOther _ => job_sets rest running_job_set failed_job_set
      end
  end.

(** Line 250. *)
Definition cur_shorten_model_name (model_name : str) : str :=
  slice_to model_name (32 - len TUNA_DEPLOYMENT_NAME_PREFIX)%Z.

(** One iteration of the loop of lines 238-268. *)
Definition models_step (client : APIClient)
    (running_job_set failed_job_set : gset str)
    (model_deployment_map : gmap str (TunaModelState * list str))
    (model_names_map : list (str * TunaModel)) (model_name : str)
    : result (list (str * TunaModel)) :=
  let job_name := _generate_job_name model_name in
  completed ← _model_train_completed client model_name;
  if negb completed && bool_decide (job_name ∉ running_job_set) then
    let model := {| folder_name := model_name;
                    tuna_model_state := TrainFailed;
                    deployments := None;
                    job_name := None |} in
    if decide (job_name ∈ failed_job_set) then
      Ok (dict_set model_names_map model_name
            {| folder_name := folder_name model;
               tuna_model_state := tuna_model_state model;
               deployments := deployments model;
               job_name := Some job_name |})
    else Ok (dict_set model_names_map model_name model)
  else if bool_decide (job_name ∉ running_job_set) then
    match model_deployment_map !! cur_shorten_model_name model_name with
    | Some cur_deployment_info =>
        Ok (dict_set model_names_map model_name
              {| folder_name := model_name;
                 tuna_model_state := cur_deployment_info.1;
                 deployments := Some cur_deployment_info.2;
                 job_name := None |})
    | None =>
        Ok (dict_set model_names_map model_name
              {| folder_name := model_name;
                 tuna_model_state := Ready;
                 deployments := None;
                 job_name := None |})
    end
  else
    Ok (dict_set model_names_map model_name
          {| folder_name := model_name;
             tuna_model_state := Training;
             deployments := None;
             job_name := Some job_name |}).

Fixpoint models_loop (client : APIClient)
    (running_job_set failed_job_set : gset str)
    (model_deployment_map : gmap str (TunaModelState * list str))
    (model_names : list str) (model_names_map : list (str * TunaModel))
    : result (list (str * TunaModel)) :=
  match model_names with
  | [] => Ok model_names_map
  | model_name :: rest =>
      model_names_map' ←
        models_step client running_job_set failed_job_set
          model_deployment_map model_names_map model_name;
      models_loop client running_job_set failed_job_set
        model_deployment_map rest model_names_map'
  end.

Definition _get_models_map (client : APIClient)
    : result (list (str * TunaModel)) :=
  tuna_folder_exists ← storage_check_exists client DEFAULT_TUNA_FOLDER;
  if negb tuna_folder_exists then Ok []
  else
    model_path_exists ← storage_check_exists client DEFAULT_TUNA_MODEL_PATH;
    if negb model_path_exists then Ok []
    else
      jobs ← job_list_all client;
      let '(running_job_set, failed_job_set) := job_sets jobs ∅ ∅ in
      model_deployment_map ← _build_shortened_model_name_deployment_map client;
      model_names ← _get_model_names client;
      models_loop client running_job_set failed_job_set
        model_deployment_map model_names [].

(** ** Vocabulary of the specification *)

(** The key under which the index files a deployment: defined for the
    deployments whose name contains the prefix and has a dash. *)
Definition index_key (deployment : LeptonDeployment) : option str :=
  if contains TUNA_DEPLOYMENT_NAME_PREFIX (deployment_metadata_name deployment)
  then
    match shortened_model_name (deployment_metadata_name deployment) with
    | Ok key => Some key
    | Raise _ => None
    end
  else None.

(** The deployments of the inventory filed under [key], in inventory
    order. *)
Definition matching_deployments (deployments : list LeptonDeployment)
    (key : str) : list LeptonDeployment :=
  filter (λ deployment, index_key deployment = Some key) deployments.

(** What the index holds under a key after one more deployment has
    been filed there: [Running] as soon as the deployment is active, the
    former state (or [Stopped] for a new key) otherwise, and one more
    entry at the end. *)
Definition absorb (held : option (TunaModelState * list str))
    (deployment : LeptonDeployment) : TunaModelState * list str :=
  (if state_in_ready_starting_updating (deployment_status_state deployment)
   then Running
   else match held with Some v => v.1 | None => Stopped end,
   match held with Some v => v.2 | None => [] end
     ++ [deployment_entry deployment]).

Fixpoint absorb_all (held : option (TunaModelState * list str))
    (deployments : list LeptonDeployment)
    : option (TunaModelState * list str) :=
  match deployments with
  | [] => held
  | deployment :: rest => absorb_all (Some (absorb held deployment)) rest
  end.

Definition running_jobs (jobs : list LeptonJob) : gset str :=
  (job_sets jobs ∅ ∅).1.

Definition failed_jobs (jobs : list LeptonJob) : gset str :=
  (job_sets jobs ∅ ∅).2.

(** The decision tree of lines 241-268 as a function of the
    training-completed flag: the record filed for a model. *)
Definition model_record (running_job_set failed_job_set : gset str)
    (model_deployment_map : gmap str (TunaModelState * list str))
    (model_name : str) (completed : bool) : TunaModel :=
  let job_name := _generate_job_name model_name in
  if negb completed && bool_decide (job_name ∉ running_job_set) then
    {| folder_name := model_name;
       tuna_model_state := TrainFailed;
       deployments := None;
       job_name :=
         if decide (job_name ∈ failed_job_set) then Some job_name else None |}
  else if bool_decide (job_name ∉ running_job_set) then
    match model_deployment_map !! cur_shorten_model_name model_name with
    | Some cur_deployment_info =>
        {| folder_name := model_name;
           tuna_model_state := cur_deployment_info.1;
           deployments := Some cur_deployment_info.2;
           job_name := None |}
    | None =>
        {| folder_name := model_name;
           tuna_model_state := Ready;
           deployments := None;
           job_name := None |}
    end
  else
    {| folder_name := model_name;
       tuna_model_state := Training;
       deployments := None;
       job_name := Some job_name |}.

(** The model names of a listing of the models root (lines 198-203). *)
Definition model_names_of (dir_infos : list DirInfo) : list str :=
  map dir_info_name
    (filter (λ dir_info, dir_info_type dir_info = lit "dir") dir_infos).

(** Every remote call of one aggregation succeeds, with the given
    inventories. *)
Definition fetched (client : APIClient) (jobs : list LeptonJob)
    (deployments : list LeptonDeployment) (dir_infos : list DirInfo) : Prop :=
  storage_check_exists client DEFAULT_TUNA_FOLDER = Ok true
  ∧ storage_check_exists client DEFAULT_TUNA_MODEL_PATH = Ok true
  ∧ job_list_all client = Ok jobs
  ∧ deployment_list_all client = Ok deployments
  ∧ storage_get_dir client DEFAULT_TUNA_MODEL_PATH = Ok dir_infos
  ∧ ∀ model_name, model_name ∈ model_names_of dir_infos →
      ∃ entries,
        storage_get_dir client (DEFAULT_TUNA_MODEL_PATH ++ lit "/" ++ model_name)
        = Ok entries.

End Tuna.

(** ** Sample inventories *)

(** The prefixes are those of the scenarios of the specification
    ("train-job-alpha", "tuna-alpha-0"); the two storage paths are sample
    values. *)
Definition sample_config : Config := {|
  DEFAULT_TUNA_FOLDER := lit "/tuna";
  DEFAULT_TUNA_MODEL_PATH := lit "/tuna/model";
  TUNA_TRAIN_JOB_NAME_PREFIX := lit "train-job-";
  TUNA_DEPLOYMENT_NAME_PREFIX := lit "tuna-"
|}.

(** A client over an in-memory snapshot: [dirs] maps each existing path
    to its listing. *)
Definition snapshot_client (dirs : list (str * list DirInfo))
    (jobs : list LeptonJob) (deployments : list LeptonDeployment) : APIClient := {|
  storage_check_exists := λ path,
    Ok (match dict_get dirs path with Some _ => true | None => false end);
  storage_get_dir := λ path,
    match dict_get dirs path with
    | Some entries => Ok entries
    | None => Raise (RemoteError "no such directory")
    end;
  job_list_all := Ok jobs;
  deployment_list_all := Ok deployments
|}.

Definition dir_entry (name : string) : DirInfo :=
  {| dir_info_name := lit name; dir_info_type := lit "dir" |}.

Definition file_entry (name : string) : DirInfo :=
  {| dir_info_name := lit name; dir_info_type := lit "file" |}.

Definition job (name : string) (state : LeptonJobState) : LeptonJob :=
  {| job_metadata_name := lit name; job_status_state := state |}.

Definition deployment (name : string) (state : LeptonDeploymentState)
    : LeptonDeployment :=
  {| deployment_metadata_name := lit name; deployment_status_state := state |}.

(** Five models: alpha is being trained, beta is trained and idle, gamma
    failed with its job still listed, delta is trained and deployed twice,
    and epsilon has an empty directory and no job. *)
Definition sample_dirs : list (str * list DirInfo) :=
  [ (lit "/tuna", [dir_entry "model"; dir_entry "dataset"]);
    (lit "/tuna/model",
       [dir_entry "alpha"; dir_entry "beta"; file_entry "notes.txt";
        dir_entry "gamma"; dir_entry "delta"; dir_entry "epsilon"]);
    (lit "/tuna/model/alpha", [file_entry "alpha_info.json"]);
    (lit "/tuna/model/beta", [file_entry "beta_info.json"; dir_entry "checkpoint"]);
    (lit "/tuna/model/gamma", [file_entry "gamma_info.json"]);
    (lit "/tuna/model/delta", [file_entry "delta_info.json"; dir_entry "checkpoint"]);
    (lit "/tuna/model/epsilon", []) ].

Definition sample_jobs : list LeptonJob :=
  [ job "train-job-alpha" JobRunning;
    job "train-job-gamma" JobFailed;
    job "train-job-delta" (JobOther (lit "Completed")) ].

Definition sample_deployments : list LeptonDeployment :=
  [ deployment "tuna-delta-0" (DepOther (lit "Not Ready"));
    deployment "other-service" DepReady;
    deployment "tuna-delta-1" DepStarting;
    deployment "tuna-gamma-0" DepReady;
    deployment "tuna-zeta-0" (DepOther (lit "Stopped")) ].

Definition sample_client : APIClient :=
  snapshot_client sample_dirs sample_jobs sample_deployments.

(** A snapshot in which the models root was never created. *)
Definition fresh_client : APIClient :=
  snapshot_client [(lit "/tuna", [])] sample_jobs sample_deployments.

(** A model name of 28 characters, and a snapshot where it is trained and
    served by the deployment that [_generate_model_deployment_name] names
    for it on an empty inventory. *)
Definition long_model_name : str := lit "abcdefghijklmnopqrstuvwxyz01".

Definition long_deployment_name : str :=
  lit "tuna-abcdefghijklmnopqrstuvwxyz01-0".

Definition long_client : APIClient :=
  snapshot_client
    [ (lit "/tuna", [dir_entry "model"]);
      (lit "/tuna/model", [dir_entry "abcdefghijklmnopqrstuvwxyz01"]);
      (lit "/tuna/model/abcdefghijklmnopqrstuvwxyz01",
         [file_entry "abcdefghijklmnopqrstuvwxyz01_info.json";
          dir_entry "checkpoint"]) ]
    []
    [ {| deployment_metadata_name := long_deployment_name;
         deployment_status_state := DepReady |} ].

(** All 999 counter candidates for the model "delta" are taken; in
    [crowded_deployments] so is one name of the fallback shape. *)
Definition exhausted_deployments : list LeptonDeployment :=
  map (λ counter,
         {| deployment_metadata_name :=
              new_name (lit "tuna-delta") counter;
            deployment_status_state := DepReady |})
      (seq 0 999).

Definition crowded_deployments : list LeptonDeployment :=
  deployment "tuna-deltaaaaa" DepReady :: exhausted_deployments.

Definition exhausted_client : APIClient :=
  snapshot_client [] [] exhausted_deployments.

Definition crowded_client : APIClient :=
  snapshot_client [] [] crowded_deployments.

(** The generator whose every draw is 0, the offset of the letter a. *)
Definition zero_rng : nat -> nat := λ _, 0%nat.

(** The mapping expected for [sample_client]. *)
Definition sample_models : list (str * TunaModel) :=
  [ (lit "alpha",
     {| folder_name := lit "alpha"; tuna_model_state := Training;
        deployments := None; job_name := Some (lit "train-job-alpha") |});
    (lit "beta",
     {| folder_name := lit "beta"; tuna_model_state := Ready;
        deployments := None; job_name := None |});
    (lit "gamma",
     {| folder_name := lit "gamma"; tuna_model_state := TrainFailed;
        deployments := None; job_name := Some (lit "train-job-gamma") |});
    (lit "delta",
     {| folder_name := lit "delta"; tuna_model_state := Running;
        deployments := Some [lit "tuna-delta-0 (Not Ready)";
                             lit "tuna-delta-1 (Starting)"];
        job_name := None |});
    (lit "epsilon",
     {| folder_name := lit "epsilon"; tuna_model_state := TrainFailed;
        deployments := None; job_name := None |}) ].


(** ** Commands *)

(** [s.split(sep)] for a one-character separator: the pieces between the
    occurrences of [sep], of which there is always at least one. *)
Fixpoint split (s : str) (sep : ascii) : list str :=
  match s with
  | [] => [[]]
  | a :: s' =>
      if Ascii.eqb a sep then [] :: split s' sep
      else
        match split s' sep with
        | piece :: pieces => (a :: piece) :: pieces
        | [] => [[a]]
        end
  end.

(** [str.isspace] on one character, for the code points below 256. *)
Definition is_space (a : ascii) : bool :=
  let n := nat_of_ascii a in
  ((9 <=? n) && (n <=? 13)) || ((28 <=? n) && (n <=? 32))
  || (n =? 133) || (n =? 160).

Fixpoint lstrip (s : str) : str :=
  match s with
  | [] => []
  | a :: s' => if is_space a then lstrip s' else s
  end.

(** [s.strip()] *)
Definition strip (s : str) : str := rev (lstrip (rev (lstrip s))).

(** [str.lower] on one character, for the code points below 256: the
    letters A-Z and the accented capitals of Latin-1 move up by 32. *)
Definition lower_char (a : ascii) : ascii :=
  let n := nat_of_ascii a in
  if ((65 <=? n) && (n <=? 90))
     || ((192 <=? n) && (n <=? 222) && negb (n =? 215))
  then ascii_of_nat (n + 32) else a.

(** [s.lower()] *)
Definition lower (s : str) : str := map lower_char s.

(** [str(z)] for an integer. *)
Definition str_of_Z (z : Z) : str :=
  if (z <? 0)%Z then "-"%char :: str_of_nat (Z.to_nat (- z))
  else str_of_nat (Z.to_nat z).

(** The outcome of a click callback: the value, or [click.BadParameter]
    with its message. *)
Inductive validation :=
| Accepted (value : str)
| BadParameter (message : str).

(** A call that changes the remote workspace. *)
Inductive action :=
| StorageDeleteAll (path : str)
| JobDelete (name : str)
| JobRemove (name : str)
| DeploymentRemove (name : str).

(** How a command ends: by returning or through [sys.exit]. *)
Inductive outcome :=
| Returned
| SysExit (code : Z).

Section Commands.

Context {cfg : Config}.

(** [check_name_regex] of [leptonai/util/util.py], which is not part of
    this file. *)
Variable check_name_regex : str → bool.

(** Lines 61-79.  The callback ignores its arguments [ctx] and [param];
    [length_limit] is [None] by default, and [None] and 0 both switch the
    length check off. *)
Definition _create_name_validator (prefix : str) (length_limit : option Z)
    (value : str) : validation :=
  let full_name := prefix ++ value in
  if negb (check_name_regex full_name) then
    BadParameter
      (lit "Invalid name '" ++ full_name
         ++ lit "': Name must consist of lower case"
         ++ lit " alphanumeric characters or '-', and must start with an alphabetical"
         ++ lit " character and end with an alphanumeric character")
  else
    match length_limit with
    | Some limit =>
        if negb (limit =? 0)%Z && (limit <? len full_name)%Z then
          BadParameter
            (lit "Invalid name '" ++ value
               ++ lit "':The name must be less than or equal to"
               ++ lit " " ++ str_of_Z (limit - len prefix))
        else Accepted value
    | None => Accepted value
    end.

(** Lines 448-455: the callback of the [--name] option of [train]. *)
Definition train_name_validator : str → validation :=
  _create_name_validator
    (if (len TUNA_TRAIN_JOB_NAME_PREFIX <? len TUNA_DEPLOYMENT_NAME_PREFIX)%Z
     then TUNA_DEPLOYMENT_NAME_PREFIX
     else TUNA_TRAIN_JOB_NAME_PREFIX)
    (Some 36%Z).

End Commands.

(** Line 676: the [env] entry of the parameters saved with a model. *)
Definition params_env (env : list str) : list str :=
  map (λ env_element,
         hd [] (split env_element "=") ++ lit "=<---secret--->")
      env.

Section MoreCommands.

Context {cfg : Config}.

(** The loop of lines 812-820, as the calls it makes.  A job name that is
    [None] or empty is skipped by [if tuna_model.job_name]. *)
Fixpoint clear_failed_loop (items : list (str * TunaModel)) : list action :=
  match items with
  | [] => []
  | (model_name, tuna_model) :: rest =>
      match tuna_model_state tuna_model with
      | TrainFailed =>
          let model_path := _generate_model_output_path model_name in
          StorageDeleteAll model_path
            :: match job_name tuna_model with
               | Some (a :: name) => [JobRemove (a :: name)]
               | Some [] | None => []
               end
            ++ clear_failed_loop rest
      | _ => clear_failed_loop rest
      end
  end.

(** Lines 807-820.  The mapping is fetched once, before the first call
    that changes the workspace; the result is the sequence of those calls
    in a run where each of them returns. *)
Definition clear_failed_trainings (client : APIClient) : result (list action) :=
  models_map ← _get_models_map client;
  Ok (clear_failed_loop models_map).

(** Lines 751 and 761: [user_input not in ["yes", "y"]], negated, for the
    line read by [input]. *)
Definition confirms (line : str) : bool :=
  let user_input := lower (strip line) in
  bool_decide (user_input ∈ [lit "yes"; lit "y"]).

(** The loop of lines 767-769. *)
Fixpoint job_delete_loop (jobs : list LeptonJob) (job_name : str) : list action :=
  match jobs with
  | [] => []
  | job :: rest =>
      if decide (job_metadata_name job = job_name)
      then JobDelete job_name :: job_delete_loop rest job_name
      else job_delete_loop rest job_name
  end.

(** The loop of lines 772-774. *)
Fixpoint deployment_remove_loop (listed : list str) : list action :=
  match listed with
  | [] => []
  | deployment :: rest =>
      let deployment_name := hd [] (split deployment " ") in
      DeploymentRemove deployment_name :: deployment_remove_loop rest
  end.

(** Lines 714-780.  [line] is what the user types if the command asks for
    confirmation.  Every read of the workspace comes before the first
    call that changes it; the result is the sequence of those calls, in a
    run where each of them returns, and the way the command ends. *)
Definition remove (client : APIClient) (line : str) (model_name : str)
    : result (list action * outcome) :=
  models_map ← _get_models_map client;
  match dict_get models_map model_name with
  | None => Ok ([], SysExit 1)
  | Some cur_tuna_model =>
      let has_deployments :=
        match deployments cur_tuna_model with
        | Some listed => (0 <? len listed)%Z
        | None => false
        end in
      goes_on ←
        (if has_deployments then Ok (confirms line)
         else
           completed ← _model_train_completed client model_name;
           if completed : bool then Ok (confirms line) else Ok true)
        : result bool;
      if negb goes_on then Ok ([], SysExit 0)
      else
        jobs ← job_list_all client;
        let job_name := _generate_job_name model_name in
        let job_calls := job_delete_loop jobs job_name in
        let deployment_calls :=
          match deployments cur_tuna_model with
          | Some listed =>
              if (0 <? len listed)%Z then deployment_remove_loop listed else []
          | None => []
          end in
        let model_path := _generate_model_output_path model_name in
        Ok (job_calls ++ deployment_calls ++ [StorageDeleteAll model_path],
            Returned)
  end.

End MoreCommands.

(** A checker for the rule that the message of line 66 states: lower
    case letters, digits and dashes, a letter first and no dash last. *)
Definition is_lower_letter (a : ascii) : bool :=
  let n := nat_of_ascii a in (97 <=? n) && (n <=? 122).

Definition is_digit (a : ascii) : bool :=
  let n := nat_of_ascii a in (48 <=? n) && (n <=? 57).

Definition sample_check_name_regex (name : str) : bool :=
  match name with
  | [] => false
  | first :: _ =>
      is_lower_letter first
      && forallb (λ a, is_lower_letter a || is_digit a || Ascii.eqb a "-") name
      && match rev name with
         | final :: _ => is_lower_letter final || is_digit final
         | [] => false
         end
  end.


(** A configuration whose deployment prefix has no dash, and an
    inventory with a deployment that contains that prefix and no dash. *)
Definition dashless_config : Config := {|
  DEFAULT_TUNA_FOLDER := lit "/tuna";
  DEFAULT_TUNA_MODEL_PATH := lit "/tuna/model";
  TUNA_TRAIN_JOB_NAME_PREFIX := lit "train";
  TUNA_DEPLOYMENT_NAME_PREFIX := lit "tuna"
|}.

Definition dashless_client : APIClient :=
  snapshot_client sample_dirs sample_jobs
    [deployment "tuna-delta-0" DepReady; deployment "tunafish" DepReady].

(** A snapshot whose models root lists a model without directory. *)
Definition broken_client : APIClient :=
  snapshot_client
    [ (lit "/tuna", [dir_entry "model"]);
      (lit "/tuna/model", [dir_entry "beta"; dir_entry "ghost"]);
      (lit "/tuna/model/beta",
         [file_entry "beta_info.json"; dir_entry "checkpoint"]) ]
    sample_jobs sample_deployments.

(** * Properties *)

(** ** Strings *)

Lemma length_slice_to_le {A} (s : list A) (k : Z) :
  (0 ≤ k)%Z → length (slice_to s k) ≤ Z.to_nat k.
Proof.
  intros Hk. unfold slice_to.
  destruct (Z.leb_spec 0 k) as [_|Hneg]; [|lia].
  rewrite length_take. lia.
Qed.

Lemma slice_to_all {A} (s : list A) (k : Z) :
  (len s ≤ k)%Z → slice_to s k = s.
Proof.
  unfold len, slice_to. intros Hk.
  destruct (Z.leb_spec 0 k) as [_|Hneg]; [|lia].
  apply take_ge. lia.
Qed.

Lemma str_of_nat_width (n : nat) :
  n < 1000 → length (str_of_nat n) = decimal_width n.
Proof.
  intros Hn.
  assert (Hall : forallb (λ c, length (str_of_nat c) =? decimal_width c)
                   (seq 0 1000) = true) by (vm_compute; reflexivity).
  rewrite forallb_forall in Hall.
  apply Nat.eqb_eq, Hall, in_seq. lia.
Qed.

Lemma str_of_nat_no_dash (n : nat) :
  n < 1000 → "-"%char ∉ str_of_nat n.
Proof.
  intros Hn Hin.
  assert (Hall : forallb (λ c, forallb (λ a, negb (Ascii.eqb a "-")) (str_of_nat c))
                   (seq 0 1000) = true) by (vm_compute; reflexivity).
  rewrite forallb_forall in Hall.
  specialize (Hall n). rewrite in_seq in Hall.
  specialize (Hall ltac:(lia)).
  rewrite forallb_forall in Hall.
  apply list_elem_of_In, Hall in Hin.
  rewrite Ascii.eqb_refl in Hin. discriminate.
Qed.

(** A character that sits closer to the end of a string than the length
    of a suffix lies inside that suffix. *)
Lemma char_in_longer_suffix {A} (l1 r1 l2 r2 : list A) (x : A) :
  l1 ++ r1 = l2 ++ x :: r2 → length r2 < length r1 → x ∈ r1.
Proof.
  intros Heq Hlen.
  assert (Hl : length l1 ≤ length l2).
  { apply (f_equal length) in Heq. rewrite !length_app in Heq. simpl in Heq. lia. }
  apply (f_equal (drop (length l1))) in Heq.
  rewrite drop_app_length in Heq.
  rewrite drop_app_le in Heq by exact Hl.
  rewrite Heq. apply elem_of_app. right. apply elem_of_cons. now left.
Qed.

Lemma random_choices_length rng population k :
  length (random_choices rng population k) = k.
Proof. unfold random_choices. now rewrite length_map, length_seq. Qed.

Lemma random_choices_drawn rng population k ch :
  population ≠ [] → ch ∈ random_choices rng population k → ch ∈ population.
Proof.
  intros Hne Hin. unfold random_choices in Hin.
  apply list_elem_of_In, in_map_iff in Hin as (i & <- & _).
  apply list_elem_of_In, nth_In.
  apply Nat.mod_upper_bound. destruct population; [done | simpl; lia].
Qed.

Lemma dash_not_alphanumeric : "-"%char ∉ ascii_letters ++ digits.
Proof.
  intros Hin. apply list_elem_of_In in Hin.
  assert (Hall : forallb (λ a, negb (Ascii.eqb a "-")) (ascii_letters ++ digits)
                 = true) by reflexivity.
  rewrite forallb_forall in Hall. apply Hall in Hin.
  rewrite Ascii.eqb_refl in Hin. discriminate.
Qed.

(** ** Error monad *)

Lemma bind_Ok {A B} (a : A) (k : A → result B) : mbind k (Ok a) = k a.
Proof. reflexivity. Qed.

Lemma bind_Raise {A B} (e : exn) (k : A → result B) :
  mbind k (Raise e) = Raise e.
Proof. reflexivity. Qed.

Lemma bind_Ok_inv {A B} (m : result A) (k : A → result B) (b : B) :
  mbind k m = Ok b → ∃ a, m = Ok a ∧ k a = Ok b.
Proof. destruct m as [a|e]; [eauto | discriminate]. Qed.

(** ** Naming engine *)

Lemma truncation_index (counter : nat) :
  counter < 1000 →
  (36 - (len (str_of_nat counter) + 1))%Z
  = Z.of_nat (35 - decimal_width counter).
Proof.
  intros Hc. unfold len. rewrite (str_of_nat_width _ Hc).
  unfold decimal_width. repeat case_match; lia.
Qed.

Lemma new_name_length (base_name : str) (counter : nat) :
  counter < 1000 → length (new_name base_name counter) ≤ 36.
Proof.
  intros Hc. unfold new_name.
  rewrite (truncation_index _ Hc), !length_app.
  pose proof (length_slice_to_le base_name
                (Z.of_nat (35 - decimal_width counter)) ltac:(lia)) as Hs.
  rewrite (str_of_nat_width _ Hc). simpl length.
  unfold decimal_width in *. repeat case_match; lia.
Qed.

Lemma counter_loop_Some names base_name n counter name :
  counter_loop names base_name n counter = Some name →
  ∃ k, counter ≤ k < counter + n ∧ name = new_name base_name k ∧ name ∉ names.
Proof.
  revert counter. induction n as [|n IH]; intros counter Hloop; simpl in Hloop.
  - discriminate.
  - destruct (decide (new_name base_name counter ∈ names)) as [Hin|Hout].
    + destruct (IH _ Hloop) as (k & Hk & Hname & Hfree).
      exists k. split; [lia | done].
    + injection Hloop as <-. exists counter. split; [lia | done].
Qed.

Lemma counter_loop_None names base_name n counter :
  counter_loop names base_name n counter = None ↔
  ∀ k, counter ≤ k < counter + n → new_name base_name k ∈ names.
Proof.
  revert counter. induction n as [|n IH]; intros counter; simpl.
  - split; [intros _ k Hk; lia | done].
  - destruct (decide (new_name base_name counter ∈ names)) as [Hin|Hout].
    + rewrite IH. split; intros Hall k Hk.
      * destruct (decide (k = counter)) as [->|Hne]; [done | apply Hall; lia].
      * apply Hall. lia.
    + split; [done | intros Hall]. destruct Hout. apply Hall. lia.
Qed.

Lemma counter_loop_finds names base_name n counter k :
  counter ≤ k < counter + n → new_name base_name k ∉ names →
  ∃ name, counter_loop names base_name n counter = Some name.
Proof.
  intros Hk Hfree.
  destruct (counter_loop names base_name n counter) as [name|] eqn:Hloop; [eauto|].
  destruct Hfree. eapply counter_loop_None; eauto.
Qed.

Section NamingProperties.

Context {cfg : Config}.

(** When the loop runs to its end the function returns the fallback
    name. *)
Lemma fallback_reached client deployments rng model_name :
  deployment_list_all client = Ok deployments →
  (∀ counter, counter < 999 →
     new_name (TUNA_DEPLOYMENT_NAME_PREFIX ++ model_name) counter
     ∈ deployment_names deployments) →
  _generate_model_deployment_name client rng model_name
  = Ok (slice_to (TUNA_DEPLOYMENT_NAME_PREFIX ++ model_name) 32%Z
          ++ random_choices rng (ascii_letters ++ digits) 4).
Proof.
  intros Hlist Hall. unfold _generate_model_deployment_name.
  rewrite Hlist, bind_Ok. cbv zeta.
  assert (Hnone : counter_loop (deployment_names deployments)
                    (TUNA_DEPLOYMENT_NAME_PREFIX ++ model_name) 999 0 = None).
  { apply counter_loop_None. intros k Hk. apply Hall. lia. }
  now rewrite Hnone.
Qed.

(** Otherwise it returns a counter candidate that is not in use, whatever
    the random draws are. *)
Lemma candidate_returned client deployments model_name counter :
  deployment_list_all client = Ok deployments →
  counter < 999 →
  new_name (TUNA_DEPLOYMENT_NAME_PREFIX ++ model_name) counter
    ∉ deployment_names deployments →
  ∃ k, k < 999
    ∧ (new_name (TUNA_DEPLOYMENT_NAME_PREFIX ++ model_name) k
         ∉ deployment_names deployments)
    ∧ (∀ rng, _generate_model_deployment_name client rng model_name
         = Ok (new_name (TUNA_DEPLOYMENT_NAME_PREFIX ++ model_name) k)).
Proof.
  intros Hlist Hc Hfree.
  destruct (counter_loop_finds (deployment_names deployments)
              (TUNA_DEPLOYMENT_NAME_PREFIX ++ model_name) 999 0 counter
              ltac:(lia) Hfree) as [name Hloop].
  destruct (counter_loop_Some _ _ _ _ _ Hloop) as (k & Hk & -> & Hout).
  exists k. split; [lia|]. split; [done|].
  intros rng. unfold _generate_model_deployment_name.
  rewrite Hlist, bind_Ok. cbv zeta. now rewrite Hloop.
Qed.

(** The fallback name is none of the counter candidates: its last four
    characters are alphanumeric, while a candidate has a dash among
    them. *)
Lemma fallback_not_a_candidate rng base_name base_name' counter :
  counter < 1000 →
  slice_to base_name 32%Z ++ random_choices rng (ascii_letters ++ digits) 4
  ≠ new_name base_name' counter.
Proof.
  intros Hc Heq. unfold new_name in Heq. simpl in Heq.
  apply char_in_longer_suffix in Heq.
  - apply random_choices_drawn in Heq; [|done].
    exact (dash_not_alphanumeric Heq).
  - rewrite random_choices_length, (str_of_nat_width _ Hc).
    unfold decimal_width. repeat case_match; lia.
Qed.

(** C6.  [_generate_model_deployment_name] returns a name, of at most
    36 characters, whatever the model name and the names in use; on the
    way the truncation index [36 - (len(str(counter)) + 1)] is 34 for a
    one-digit counter, 33 for two digits and 32 for three, and every
    counter candidate stays within 36 characters. *)
Theorem generated_name_within_limit client deployments rng model_name :
  deployment_list_all client = Ok deployments →
  (∃ name, _generate_model_deployment_name client rng model_name = Ok name
           ∧ length name ≤ 36)
  ∧ ∀ counter, counter < 999 →
      (36 - (len (str_of_nat counter) + 1))%Z
      = (if (counter <? 10)%nat then 34
         else if (counter <? 100)%nat then 33 else 32)%Z
      ∧ length (new_name (TUNA_DEPLOYMENT_NAME_PREFIX ++ model_name) counter)
        ≤ 36.
Proof.
  intros Hlist. split.
  - unfold _generate_model_deployment_name. rewrite Hlist, bind_Ok. cbv zeta.
    destruct (counter_loop _ _ 999 0) as [name|] eqn:Hloop.
    + exists name. split; [done|].
      destruct (counter_loop_Some _ _ _ _ _ Hloop) as (k & Hk & -> & _).
      apply new_name_length. lia.
    + eexists. split; [done|].
      rewrite length_app, random_choices_length.
      pose proof (length_slice_to_le
                    (TUNA_DEPLOYMENT_NAME_PREFIX ++ model_name) 32 ltac:(lia)).
      lia.
  - intros counter Hc. split.
    + rewrite truncation_index by lia. unfold decimal_width.
      repeat case_match; lia.
    + apply new_name_length. lia.
Qed.

(** C8.  Away from the exhaustion fallback, that is when some counter
    below 999 gives a name that is not in use, the result depends on the
    names in use and on the model name only: two calls, whatever their
    random draws, return the same name. *)
Theorem generated_name_deterministic client deployments rng1 rng2
    model_name :
  deployment_list_all client = Ok deployments →
  (∃ counter, counter < 999
     ∧ (new_name (TUNA_DEPLOYMENT_NAME_PREFIX ++ model_name) counter
          ∉ deployment_names deployments)) →
  ∃ name, _generate_model_deployment_name client rng1 model_name = Ok name
        ∧ _generate_model_deployment_name client rng2 model_name = Ok name.
Proof.
  intros Hlist (counter & Hc & Hfree).
  destruct (candidate_returned client deployments model_name counter
              Hlist Hc Hfree) as (k & _ & _ & Hret).
  eexists. split; apply Hret.
Qed.

(** C2, amended.  When all 999 counter candidates are in use, the
    function returns the prefix plus model name cut to 32 characters
    followed by four characters drawn from the letters and digits; that
    name has at most 36 characters and is none of the 999 candidates, so
    it is not in use when every name in use is one of the candidates.
    The fallback name itself is not looked up among the names in use. *)
Theorem fallback_name client deployments rng model_name :
  deployment_list_all client = Ok deployments →
  (∀ counter, counter < 999 →
     new_name (TUNA_DEPLOYMENT_NAME_PREFIX ++ model_name) counter
     ∈ deployment_names deployments) →
  let random_string := random_choices rng (ascii_letters ++ digits) 4 in
  let name :=
    slice_to (TUNA_DEPLOYMENT_NAME_PREFIX ++ model_name) 32%Z
      ++ random_string in
  _generate_model_deployment_name client rng model_name = Ok name
  ∧ length random_string = 4
  ∧ (∀ ch, ch ∈ random_string → ch ∈ ascii_letters ++ digits)
  ∧ length name ≤ 36
  ∧ (∀ counter, counter < 999 →
       name ≠ new_name (TUNA_DEPLOYMENT_NAME_PREFIX ++ model_name) counter)
  ∧ ((∀ existing, existing ∈ deployment_names deployments →
        ∃ counter, counter < 999
          ∧ existing
            = new_name (TUNA_DEPLOYMENT_NAME_PREFIX ++ model_name) counter) →
     name ∉ deployment_names deployments).
Proof.
  intros Hlist Hall random_string name.
  split; [by apply (fallback_reached client deployments)|].
  split; [apply random_choices_length|].
  split; [intros ch; by apply random_choices_drawn|].
  split.
  { unfold name. rewrite length_app. unfold random_string.
    rewrite random_choices_length.
    pose proof (length_slice_to_le
                  (TUNA_DEPLOYMENT_NAME_PREFIX ++ model_name) 32 ltac:(lia)).
    lia. }
  split.
  { intros counter Hc. apply fallback_not_a_candidate. lia. }
  intros Honly Hin. destruct (Honly _ Hin) as (counter & Hc & Heq).
  revert Heq. apply fallback_not_a_candidate. lia.
Qed.

End NamingProperties.

(** ** Deployment index *)

Lemma starts_with_elem (p s : str) (c : ascii) :
  starts_with p s = true → c ∈ p → c ∈ s.
Proof.
  revert s. induction p as [|a p IH]; intros s Hsw Hin.
  - inversion Hin.
  - destruct s as [|b s]; [discriminate|]. simpl in Hsw.
    destruct (Ascii.eqb a b) eqn:Hab; [|discriminate].
    apply Ascii.eqb_eq in Hab. subst b.
    apply elem_of_cons in Hin as [->|Hin]; apply elem_of_cons; eauto.
Qed.

Lemma contains_elem (sub s : str) (c : ascii) :
  contains sub s = true → c ∈ sub → c ∈ s.
Proof.
  induction s as [|b s IH]; simpl; intros Hc Hin.
  - rewrite orb_false_r in Hc. eapply starts_with_elem; eauto.
  - apply orb_true_iff in Hc as [Hsw|Hc].
    + eapply starts_with_elem; eauto.
    + apply elem_of_cons. right. auto.
Qed.

Lemma rindex_is_Some (s : str) (c : ascii) :
  c ∈ s → ∃ i, rindex s c = Some i.
Proof.
  induction s as [|a s IH]; intros Hin.
  - inversion Hin.
  - simpl. destruct (rindex s c) as [i|] eqn:Hr; [eauto|].
    apply elem_of_cons in Hin as [->|Hin].
    + rewrite Ascii.eqb_refl. eauto.
    + destruct (IH Hin) as [i Hi]. discriminate.
Qed.

Lemma absorb_all_Some st entries deployments :
  absorb_all (Some (st, entries)) deployments
  = Some (if existsb (λ d, state_in_ready_starting_updating
                             (deployment_status_state d)) deployments
          then Running else st,
          entries ++ map deployment_entry deployments).
Proof.
  revert st entries. induction deployments as [|d rest IH]; intros st entries.
  - simpl. now rewrite app_nil_r.
  - simpl. unfold absorb at 1. simpl. rewrite IH, <- app_assoc. simpl.
    destruct (state_in_ready_starting_updating (deployment_status_state d));
      simpl; [|done].
    now destruct (existsb _ rest).
Qed.

Lemma absorb_all_None deployments :
  deployments ≠ [] →
  absorb_all None deployments
  = Some (if existsb (λ d, state_in_ready_starting_updating
                             (deployment_status_state d)) deployments
          then Running else Stopped,
          map deployment_entry deployments).
Proof.
  destruct deployments as [|d rest]; [done | intros _].
  simpl. unfold absorb at 1. simpl. rewrite absorb_all_Some. simpl.
  destruct (state_in_ready_starting_updating (deployment_status_state d));
    simpl; [|done].
  now destruct (existsb _ rest).
Qed.

Section IndexProperties.

Context {cfg : Config}.

Lemma index_key_defined deployment :
  "-"%char ∈ TUNA_DEPLOYMENT_NAME_PREFIX →
  contains TUNA_DEPLOYMENT_NAME_PREFIX (deployment_metadata_name deployment)
    = true →
  ∃ key, index_key deployment = Some key.
Proof.
  intros Hdash Hc. unfold index_key, shortened_model_name. rewrite Hc.
  destruct (rindex_is_Some (deployment_metadata_name deployment) "-")
    as [i ->]; [|eauto].
  eapply contains_elem; eauto.
Qed.

Lemma index_step_skip m deployment :
  contains TUNA_DEPLOYMENT_NAME_PREFIX (deployment_metadata_name deployment)
    = false →
  index_step m deployment = Ok m ∧ index_key deployment = None.
Proof.
  intros Hc. unfold index_step, index_key. now rewrite Hc.
Qed.

Lemma index_step_raises m deployment :
  contains TUNA_DEPLOYMENT_NAME_PREFIX (deployment_metadata_name deployment)
    = true →
  index_key deployment = None →
  index_step m deployment = Raise ValueError.
Proof.
  unfold index_step, index_key, shortened_model_name. intros -> Hk. simpl.
  now destruct (rindex (deployment_metadata_name deployment) "-").
Qed.

Lemma index_step_files m deployment key :
  index_key deployment = Some key →
  ∃ m', index_step m deployment = Ok m'
    ∧ ∀ key', m' !! key'
        = if decide (key' = key) then Some (absorb (m !! key) deployment)
          else m !! key'.
Proof.
  unfold index_key, index_step. intros Hk.
  destruct (contains _ _); [|discriminate]. simpl.
  destruct (shortened_model_name _) as [k|e]; [|discriminate].
  injection Hk as ->. rewrite bind_Ok. eexists. split; [reflexivity|].
  intros key'. rewrite lookup_alter. unfold absorb.
  destruct (decide (key = key')) as [<-|Hne].
  - rewrite decide_True by done.
    destruct (state_in_ready_starting_updating _), (m !! key) as [[st es]|] eqn:Hm;
      simpl; rewrite ?lookup_insert_eq, ?Hm; done.
  - rewrite decide_False by done.
    destruct (state_in_ready_starting_updating _), (m !! key) as [[st es]|] eqn:Hm;
      simpl; rewrite ?lookup_insert_ne by done; done.
Qed.

Lemma matching_deployments_cons deployment rest key :
  matching_deployments (deployment :: rest) key
  = if decide (index_key deployment = Some key)
    then deployment :: matching_deployments rest key
    else matching_deployments rest key.
Proof. reflexivity. Qed.

(** The loop files every deployment under its key, in inventory order. *)
Lemma index_loop_lookup deployments m m' :
  index_loop deployments m = Ok m' →
  ∀ key, m' !! key
         = absorb_all (m !! key) (matching_deployments deployments key).
Proof.
  revert m. induction deployments as [|d rest IH]; intros m Hloop key.
  - simpl in Hloop. now injection Hloop as <-.
  - simpl in Hloop. apply bind_Ok_inv in Hloop as (m1 & Hstep & Hloop).
    rewrite (IH _ Hloop key), matching_deployments_cons.
    destruct (contains TUNA_DEPLOYMENT_NAME_PREFIX
                (deployment_metadata_name d)) eqn:Hc.
    + destruct (index_key d) as [k|] eqn:Hk.
      * destruct (index_step_files m d k Hk) as (m1' & Hstep' & Hlook).
        rewrite Hstep in Hstep'. injection Hstep' as <-.
        rewrite Hlook. destruct (decide (key = k)) as [->|Hne].
        -- now rewrite decide_True.
        -- rewrite decide_False; [done | congruence].
      * rewrite (index_step_raises m d Hc Hk) in Hstep. discriminate.
    + destruct (index_step_skip m d Hc) as [Hstep' Hk].
      rewrite Hstep in Hstep'. injection Hstep' as ->.
      rewrite Hk. now rewrite decide_False.
Qed.

(** With a dash in the prefix, [rindex] never raises. *)
Lemma index_loop_returns deployments m :
  "-"%char ∈ TUNA_DEPLOYMENT_NAME_PREFIX →
  ∃ m', index_loop deployments m = Ok m'.
Proof.
  intros Hdash. revert m.
  induction deployments as [|d rest IH]; intros m; simpl; [eauto|].
  destruct (contains TUNA_DEPLOYMENT_NAME_PREFIX
              (deployment_metadata_name d)) eqn:Hc.
  - destruct (index_key_defined d Hdash Hc) as [k Hk].
    destruct (index_step_files m d k Hk) as (m1 & -> & _).
    rewrite bind_Ok. apply IH.
  - destruct (index_step_skip m d Hc) as [-> _]. rewrite bind_Ok. apply IH.
Qed.

(** The states held by the index are [Running] and [Stopped]. *)
Lemma index_states deployments m' key info :
  index_loop deployments ∅ = Ok m' →
  m' !! key = Some info →
  info.1 = Running ∨ info.1 = Stopped.
Proof.
  intros Hloop Hget.
  rewrite (index_loop_lookup _ _ _ Hloop key), lookup_empty in Hget.
  destruct (matching_deployments deployments key) as [|d l] eqn:Hm.
  - discriminate.
  - rewrite absorb_all_None in Hget by done.
    set (active := existsb _ _) in Hget. injection Hget as <-.
    cbn [fst]. destruct active; auto.
Qed.

(** C5.  In the index built from the inventory, a key with at least one
    matching deployment holds the state [Running] if and only if one of
    the matching deployments is Ready, Starting or Updating, and
    [Stopped] otherwise, together with the entries
    "<deployment name> (<status>)" of the matching deployments in
    inventory order; a key without matching deployment is absent. *)
Theorem deployment_index_aggregates client deployments :
  deployment_list_all client = Ok deployments →
  "-"%char ∈ TUNA_DEPLOYMENT_NAME_PREFIX →
  ∃ index,
    _build_shortened_model_name_deployment_map client = Ok index
    ∧ ∀ key,
        let matching := matching_deployments deployments key in
        (matching = [] → index !! key = None)
        ∧ (matching ≠ [] →
           ∃ state,
             index !! key = Some (state, map deployment_entry matching)
             ∧ (state = Running ↔
                ∃ deployment, deployment ∈ matching
                  ∧ deployment_status_state deployment
                      ∈ [DepReady; DepStarting; DepUpdating])
             ∧ (state ≠ Running → state = Stopped)).
Proof.
  intros Hlist Hdash. unfold _build_shortened_model_name_deployment_map.
  rewrite Hlist, bind_Ok.
  destruct (index_loop_returns deployments ∅ Hdash) as [index Hloop].
  exists index. split; [exact Hloop|]. intros key.
  set (matching := matching_deployments deployments key).
  pose proof (index_loop_lookup _ _ _ Hloop key) as Hget.
  rewrite lookup_empty in Hget. fold matching in Hget. split.
  - intros Hnil. now rewrite Hget, Hnil.
  - intros Hne. rewrite absorb_all_None in Hget by done.
    eexists. split; [exact Hget|].
    destruct (existsb _ matching) eqn:Hex.
    + split; [|done]. split; [intros _|done].
      apply existsb_exists in Hex as (d & Hin & Hact).
      exists d. split; [by apply list_elem_of_In|].
      destruct (deployment_status_state d); try discriminate;
        repeat constructor.
    + split; [|done]. split; [done|].
      intros (d & Hin & Hst).
      assert (Hact : state_in_ready_starting_updating
                       (deployment_status_state d) = true).
      { destruct (deployment_status_state d); [done..|].
        repeat (apply elem_of_cons in Hst as [Hst|Hst]; [discriminate|]).
        inversion Hst. }
      assert (existsb (λ d, state_in_ready_starting_updating
                              (deployment_status_state d)) matching = true)
        as Hex' by (apply existsb_exists; exists d; split;
                    [by apply list_elem_of_In | done]).
      congruence.
Qed.

End IndexProperties.

(** ** State aggregation *)

Lemma dict_get_set {V} (d : list (str * V)) (k k' : str) (v : V) :
  dict_get (dict_set d k v) k'
  = if decide (k = k') then Some v else dict_get d k'.
Proof.
  induction d as [|[k0 v0] d IH]; simpl.
  - reflexivity.
  - destruct (decide (k0 = k)) as [->|Hne]; simpl.
    + now destruct (decide (k = k')).
    + rewrite IH. destruct (decide (k0 = k')) as [->|Hne'].
      * now rewrite decide_False by congruence.
      * reflexivity.
Qed.

Lemma dict_set_elem {V} (d : list (str * V)) (k : str) (v : V) (e : str * V) :
  e ∈ dict_set d k v → e = (k, v) ∨ e ∈ d.
Proof.
  induction d as [|[k0 v0] d IH]; simpl; intros Hin.
  - apply elem_of_cons in Hin as [->|Hin]; auto.
  - destruct (decide (k0 = k)) as [->|Hne];
      apply elem_of_cons in Hin as [->|Hin]; auto.
    + right. apply elem_of_cons. auto.
    + right. apply elem_of_cons. auto.
    + destruct (IH Hin) as [->|Hd]; auto. right. apply elem_of_cons. auto.
Qed.

Lemma job_sets_spec jobs running failed name :
  (name ∈ (job_sets jobs running failed).1 ↔
   name ∈ running
   ∨ ∃ job, job ∈ jobs ∧ job_metadata_name job = name
       ∧ (job_status_state job = JobRunning
          ∨ job_status_state job = JobStarting))
  ∧ (name ∈ (job_sets jobs running failed).2 ↔
     name ∈ failed
     ∨ ∃ job, job ∈ jobs ∧ job_metadata_name job = name
         ∧ job_status_state job = JobFailed).
Proof.
  revert running failed. induction jobs as [|j rest IH]; intros running failed.
  - simpl. split; (split; [auto | intros [H|(job & Hin & _)]; [done | inversion Hin]]).
  - simpl. destruct (job_status_state j) eqn:Hst;
      destruct (IH running failed) as [IHr1 IHf1];
      destruct (IH ({[job_metadata_name j]} ∪ running) failed) as [IHr2 IHf2];
      destruct (IH running ({[job_metadata_name j]} ∪ failed)) as [IHr3 IHf3];
      clear IH; split;
      rewrite ?IHr1, ?IHf1, ?IHr2, ?IHf2, ?IHr3, ?IHf3; clear -Hst;
      (split;
       [ intros [Hin|(job & Hin & Hn & Hs)];
         [ try (apply elem_of_union in Hin as [Hin|Hin];
                [apply elem_of_singleton in Hin; subst name; right; exists j;
                 split; [apply elem_of_cons; auto | auto] | auto]); auto
         | right; exists job; split; [apply elem_of_cons; auto | auto] ]
       | intros [Hin|(job & Hin & Hn & Hs)];
         [ try (left; apply elem_of_union; auto; fail); auto
         | apply elem_of_cons in Hin as [->|Hin];
           [ try (left; apply elem_of_union; left; apply elem_of_singleton;
                  auto; fail);
             try (destruct Hs; congruence); try congruence
           | right; exists job; auto ] ] ]).
Qed.

Section AggregationProperties.

Context {cfg : Config}.

Lemma running_jobs_spec jobs name :
  name ∈ running_jobs jobs ↔
  ∃ job, job ∈ jobs ∧ job_metadata_name job = name
    ∧ (job_status_state job = JobRunning
       ∨ job_status_state job = JobStarting).
Proof.
  unfold running_jobs. rewrite (proj1 (job_sets_spec jobs ∅ ∅ name)).
  split; [intros [H|H]; [set_solver | done] | auto].
Qed.

Lemma failed_jobs_spec jobs name :
  name ∈ failed_jobs jobs ↔
  ∃ job, job ∈ jobs ∧ job_metadata_name job = name
    ∧ job_status_state job = JobFailed.
Proof.
  unfold failed_jobs. rewrite (proj2 (job_sets_spec jobs ∅ ∅ name)).
  split; [intros [H|H]; [set_solver | done] | auto].
Qed.

(** An iteration files the record that the decision tree gives for the
    entry count of the model directory. *)
Lemma models_step_files client running failed index map model_name entries :
  storage_get_dir client (DEFAULT_TUNA_MODEL_PATH ++ lit "/" ++ model_name)
    = Ok entries →
  models_step client running failed index map model_name
  = Ok (dict_set map model_name
          (model_record running failed index model_name (1 <? len entries)%Z)).
Proof.
  intros Hdir. unfold models_step, _model_train_completed, model_record.
  rewrite Hdir, !bind_Ok.
  destruct (negb (1 <? len entries)%Z && _) eqn:Hfail.
  - now destruct (decide (_ ∈ failed)).
  - destruct (bool_decide _); [|done].
    now destruct (index !! _).
Qed.

Lemma models_step_inv client running failed index map model_name map' :
  models_step client running failed index map model_name = Ok map' →
  ∃ entries,
    storage_get_dir client (DEFAULT_TUNA_MODEL_PATH ++ lit "/" ++ model_name)
      = Ok entries
    ∧ map' = dict_set map model_name
               (model_record running failed index model_name
                  (1 <? len entries)%Z).
Proof.
  intros Hstep.
  destruct (storage_get_dir client
              (DEFAULT_TUNA_MODEL_PATH ++ lit "/" ++ model_name))
    as [entries|e] eqn:Hdir.
  - exists entries. split; [done|].
    rewrite (models_step_files _ _ _ _ _ _ _ Hdir) in Hstep. congruence.
  - unfold models_step, _model_train_completed in Hstep.
    rewrite Hdir in Hstep. discriminate.
Qed.

Lemma models_loop_returns client running failed index model_names map :
  (∀ model_name, model_name ∈ model_names →
     ∃ entries,
       storage_get_dir client
         (DEFAULT_TUNA_MODEL_PATH ++ lit "/" ++ model_name) = Ok entries) →
  ∃ models,
    models_loop client running failed index model_names map = Ok models.
Proof.
  revert map. induction model_names as [|m rest IH]; intros map Hdirs; simpl.
  - eauto.
  - destruct (Hdirs m) as [entries Hdir]; [apply elem_of_cons; auto|].
    rewrite (models_step_files _ _ _ _ _ _ _ Hdir), bind_Ok.
    apply IH. intros m' Hin. apply Hdirs, elem_of_cons. auto.
Qed.

(** After the loop a listed model holds the record of the decision tree;
    the other keys are untouched. *)
Lemma models_loop_lookup client running failed index model_names map models
    model_name :
  models_loop client running failed index model_names map = Ok models →
  (model_name ∈ model_names →
   ∃ entries,
     storage_get_dir client
       (DEFAULT_TUNA_MODEL_PATH ++ lit "/" ++ model_name) = Ok entries
     ∧ dict_get models model_name
       = Some (model_record running failed index model_name
                 (1 <? len entries)%Z))
  ∧ (model_name ∉ model_names →
     dict_get models model_name = dict_get map model_name).
Proof.
  revert map. induction model_names as [|m rest IH]; intros map Hloop;
    simpl in Hloop.
  - injection Hloop as <-. split; [intros Hin; inversion Hin | done].
  - apply bind_Ok_inv in Hloop as (map' & Hstep & Hloop).
    apply models_step_inv in Hstep as (entries & Hdir & ->).
    destruct (IH _ Hloop) as [IHin IHout].
    destruct (decide (model_name ∈ rest)) as [Hrest|Hrest].
    + split; [auto|]. intros Hout. destruct Hout. apply elem_of_cons. auto.
    + split.
      * intros Hin. apply elem_of_cons in Hin as [->|Hin]; [|done].
        exists entries. split; [done|].
        rewrite (IHout Hrest), dict_get_set. now rewrite decide_True.
      * intros Hout. rewrite (IHout Hrest), dict_get_set.
        rewrite decide_False; [done|]. intros ->. apply Hout.
        apply elem_of_cons. auto.
Qed.

(** Every entry of the result was filed by some iteration or was there
    before. *)
Lemma models_loop_entries client running failed index model_names map models
    entry :
  models_loop client running failed index model_names map = Ok models →
  entry ∈ models →
  entry ∈ map
  ∨ ∃ completed,
      entry.2 = model_record running failed index entry.1 completed.
Proof.
  revert map. induction model_names as [|m rest IH]; intros map Hloop Hin;
    simpl in Hloop.
  - injection Hloop as <-. auto.
  - apply bind_Ok_inv in Hloop as (map' & Hstep & Hloop).
    apply models_step_inv in Hstep as (entries & Hdir & ->).
    destruct (IH _ Hloop Hin) as [Hset|Hrec]; [|auto].
    apply dict_set_elem in Hset as [->|Hmap]; [|auto].
    right. eexists. reflexivity.
Qed.

(** With every remote call answered, aggregation is the loop over the
    listed model names, started on the empty dictionary. *)
Lemma get_models_map_fetched client jobs deployments dir_infos :
  fetched client jobs deployments dir_infos →
  "-"%char ∈ TUNA_DEPLOYMENT_NAME_PREFIX →
  ∃ index models,
    _build_shortened_model_name_deployment_map client = Ok index
    ∧ _get_models_map client = Ok models
    ∧ models_loop client (running_jobs jobs) (failed_jobs jobs) index
        (model_names_of dir_infos) [] = Ok models.
Proof.
  intros (Hroot & Hpath & Hjobs & Hdeps & Hdir & Hdirs) Hdash.
  destruct (index_loop_returns deployments ∅ Hdash) as [index Hindex].
  destruct (models_loop_returns client (running_jobs jobs) (failed_jobs jobs)
              index (model_names_of dir_infos) [] Hdirs) as [models Hloop].
  exists index, models.
  assert (Hbuild : _build_shortened_model_name_deployment_map client
                   = Ok index).
  { unfold _build_shortened_model_name_deployment_map.
    now rewrite Hdeps, bind_Ok. }
  split; [done|]. split; [|done].
  unfold _get_models_map.
  rewrite Hroot, bind_Ok. cbn [negb]. rewrite Hpath, bind_Ok. cbn [negb].
  rewrite Hjobs, bind_Ok.
  unfold running_jobs, failed_jobs in Hloop.
  destruct (job_sets jobs ∅ ∅) as [running failed].
  rewrite Hbuild, bind_Ok. unfold _get_model_names.
  rewrite Hdir, !bind_Ok. exact Hloop.
Qed.

(** C3.  A listed model whose output directory has at most one entry
    and whose job name is not in the running set is filed as
    [TrainFailed], whatever the deployment inventory holds; its
    [job_name] is the derived job name when that name is in the failed
    set and is unset otherwise. *)
Theorem train_failed_without_running_job client jobs deployments dir_infos
    model_name entries :
  fetched client jobs deployments dir_infos →
  "-"%char ∈ TUNA_DEPLOYMENT_NAME_PREFIX →
  model_name ∈ model_names_of dir_infos →
  storage_get_dir client (DEFAULT_TUNA_MODEL_PATH ++ lit "/" ++ model_name)
    = Ok entries →
  length entries ≤ 1 →
  _generate_job_name model_name ∉ running_jobs jobs →
  ∃ models,
    _get_models_map client = Ok models
    ∧ dict_get models model_name
      = Some {| folder_name := model_name;
                tuna_model_state := TrainFailed;
                deployments := None;
                job_name :=
                  if decide (_generate_job_name model_name ∈ failed_jobs jobs)
                  then Some (_generate_job_name model_name)
                  else None |}.
Proof.
  intros Hfetched Hdash Hlisted Hdir Hlen Hidle.
  destruct (get_models_map_fetched _ _ _ _ Hfetched Hdash)
    as (index & models & _ & Hmap & Hloop).
  exists models. split; [done|].
  destruct (proj1 (models_loop_lookup _ _ _ _ _ _ _ model_name Hloop) Hlisted)
    as (entries' & Hdir' & ->).
  rewrite Hdir in Hdir'. injection Hdir' as <-.
  unfold model_record.
  replace (1 <? len entries)%Z with false
    by (symmetry; apply Z.ltb_ge; unfold len; lia).
  now rewrite bool_decide_eq_true_2.
Qed.

(** C4.  A listed model whose job name is in the running set is filed
    as [Training] with [job_name] the job prefix followed by the model
    name, whatever the deployment inventory and the entries of its
    directory are. *)
Theorem training_with_running_job client jobs deployments dir_infos
    model_name :
  fetched client jobs deployments dir_infos →
  "-"%char ∈ TUNA_DEPLOYMENT_NAME_PREFIX →
  model_name ∈ model_names_of dir_infos →
  _generate_job_name model_name ∈ running_jobs jobs →
  ∃ models,
    _get_models_map client = Ok models
    ∧ dict_get models model_name
      = Some {| folder_name := model_name;
                tuna_model_state := Training;
                deployments := None;
                job_name := Some (TUNA_TRAIN_JOB_NAME_PREFIX ++ model_name) |}.
Proof.
  intros Hfetched Hdash Hlisted Hbusy.
  destruct (get_models_map_fetched _ _ _ _ Hfetched Hdash)
    as (index & models & _ & Hmap & Hloop).
  exists models. split; [done|].
  destruct (proj1 (models_loop_lookup _ _ _ _ _ _ _ model_name Hloop) Hlisted)
    as (entries & _ & ->).
  unfold model_record.
  rewrite bool_decide_eq_false_2 by (intros Hout; exact (Hout Hbusy)).
  now rewrite andb_false_r.
Qed.

(** C7.  When the tuna folder does not exist, or it does and the models
    path does not, aggregation returns the empty mapping; neither the
    jobs nor the deployments are fetched, so this holds whatever those
    calls would answer. *)
Theorem absent_root_gives_empty_map client :
  storage_check_exists client DEFAULT_TUNA_FOLDER = Ok false
  ∨ ((∃ found, storage_check_exists client DEFAULT_TUNA_FOLDER = Ok found)
     ∧ storage_check_exists client DEFAULT_TUNA_MODEL_PATH = Ok false) →
  _get_models_map client = Ok [].
Proof.
  unfold _get_models_map. intros [Hroot|[[found Hroot] Hpath]].
  - now rewrite Hroot, bind_Ok.
  - rewrite Hroot, bind_Ok. destruct found; [|done].
    cbn [negb]. now rewrite Hpath, bind_Ok.
Qed.

Lemma model_record_state running failed index model_name completed :
  (∀ key info, index !! key = Some info →
     info.1 = Running ∨ info.1 = Stopped) →
  tuna_model_state (model_record running failed index model_name completed)
  ∈ [Training; Ready; Running; TrainFailed; Stopped].
Proof.
  intros Hindex. unfold model_record.
  destruct (negb completed && _); [simpl; repeat constructor|].
  destruct (bool_decide _); [|simpl; repeat constructor].
  destruct (index !! _) as [info|] eqn:Hget; [|simpl; repeat constructor].
  simpl. destruct (Hindex _ _ Hget) as [-> | ->]; repeat constructor.
Qed.

(** C9.  Every record of a mapping returned by aggregation has one of
    the states Training, Ready, Running, TrainFailed and Stopped; the
    state Unknown is never assigned. *)
Theorem state_never_unknown client models model_name model :
  _get_models_map client = Ok models →
  (model_name, model) ∈ models →
  tuna_model_state model ∈ [Training; Ready; Running; TrainFailed; Stopped]
  ∧ tuna_model_state model ≠ Unknown.
Proof.
  intros Hmap Hin.
  assert (Hstate : tuna_model_state model
                   ∈ [Training; Ready; Running; TrainFailed; Stopped]).
  { unfold _get_models_map in Hmap.
    apply bind_Ok_inv in Hmap as ([] & _ & Hmap); cbn [negb] in Hmap;
      [|injection Hmap as <-; inversion Hin].
    apply bind_Ok_inv in Hmap as ([] & _ & Hmap); cbn [negb] in Hmap;
      [|injection Hmap as <-; inversion Hin].
    apply bind_Ok_inv in Hmap as (jobs & _ & Hmap).
    destruct (job_sets jobs ∅ ∅) as [running failed].
    apply bind_Ok_inv in Hmap as (index & Hbuild & Hmap).
    apply bind_Ok_inv in Hmap as (names & _ & Hloop).
    unfold _build_shortened_model_name_deployment_map in Hbuild.
    apply bind_Ok_inv in Hbuild as (deployments & _ & Hindex).
    destruct (models_loop_entries _ _ _ _ _ _ _ _ Hloop Hin)
      as [Hnil|[completed Hrec]]; [inversion Hnil|].
    simpl in Hrec. rewrite Hrec. apply model_record_state.
    intros key info. apply (index_states deployments). exact Hindex. }
  split; [done|]. intros Heq. rewrite Heq in Hstate.
  repeat (apply elem_of_cons in Hstate as [Hstate|Hstate]; [discriminate|]).
  inversion Hstate.
Qed.

(** C10.  A listed model whose directory has no entry at all is neither
    skipped nor marked Unknown: with its job name in neither the running
    nor the failed set it is filed as [TrainFailed] with [job_name]
    unset. *)
Theorem empty_directory_is_train_failed client jobs deployments dir_infos
    model_name :
  fetched client jobs deployments dir_infos →
  "-"%char ∈ TUNA_DEPLOYMENT_NAME_PREFIX →
  model_name ∈ model_names_of dir_infos →
  storage_get_dir client (DEFAULT_TUNA_MODEL_PATH ++ lit "/" ++ model_name)
    = Ok [] →
  _generate_job_name model_name ∉ running_jobs jobs →
  _generate_job_name model_name ∉ failed_jobs jobs →
  _model_train_completed client model_name = Ok false
  ∧ ∃ models,
      _get_models_map client = Ok models
      ∧ dict_get models model_name
        = Some {| folder_name := model_name;
                  tuna_model_state := TrainFailed;
                  deployments := None;
                  job_name := None |}.
Proof.
  intros Hfetched Hdash Hlisted Hdir Hidle Hgone. split.
  { unfold _model_train_completed. now rewrite Hdir, bind_Ok. }
  destruct (get_models_map_fetched _ _ _ _ Hfetched Hdash)
    as (index & models & _ & Hmap & Hloop).
  exists models. split; [done|].
  destruct (proj1 (models_loop_lookup _ _ _ _ _ _ _ model_name Hloop) Hlisted)
    as (entries' & Hdir' & ->).
  rewrite Hdir in Hdir'. injection Hdir' as <-.
  unfold model_record. cbn [len length Z.of_nat Z.ltb Z.compare negb andb].
  rewrite bool_decide_eq_true_2 by done.
  now rewrite decide_False.
Qed.

End AggregationProperties.

(** ** The sample inventories *)

Lemma sample_prefix_has_dash :
  "-"%char ∈ @TUNA_DEPLOYMENT_NAME_PREFIX sample_config.
Proof. apply list_elem_of_In. simpl. auto 10. Qed.

Lemma sample_aggregation :
  @_get_models_map sample_config sample_client = Ok sample_models.
Proof. vm_compute. reflexivity. Qed.

Lemma sample_fetched :
  @fetched sample_config sample_client sample_jobs sample_deployments
    [dir_entry "alpha"; dir_entry "beta"; file_entry "notes.txt";
     dir_entry "gamma"; dir_entry "delta"; dir_entry "epsilon"].
Proof.
  repeat split.
  intros model_name Hin. vm_compute in Hin.
  repeat (apply elem_of_cons in Hin as [->|Hin]; [eexists; reflexivity|]).
  inversion Hin.
Qed.

Lemma exhausted_covers counter :
  counter < 999 →
  new_name (lit "tuna-delta") counter ∈ deployment_names exhausted_deployments.
Proof.
  intros Hc. unfold deployment_names, exhausted_deployments.
  apply elem_of_list_to_set. rewrite map_map.
  apply list_elem_of_In, in_map_iff. exists counter.
  split; [reflexivity | apply in_seq; lia].
Qed.

Lemma exhausted_only existing :
  existing ∈ deployment_names exhausted_deployments →
  ∃ counter, counter < 999 ∧ existing = new_name (lit "tuna-delta") counter.
Proof.
  unfold deployment_names, exhausted_deployments. intros Hin.
  apply elem_of_list_to_set in Hin. rewrite map_map in Hin.
  apply list_elem_of_In, in_map_iff in Hin as (counter & <- & Hseq).
  apply in_seq in Hseq. exists counter. split; [lia | reflexivity].
Qed.

Lemma crowded_covers counter :
  counter < 999 →
  new_name (lit "tuna-delta") counter ∈ deployment_names crowded_deployments.
Proof.
  intros Hc. unfold deployment_names, crowded_deployments.
  apply elem_of_list_to_set. rewrite map_cons. apply elem_of_cons. right.
  apply (elem_of_list_to_set (C:=gset (list ascii))). by apply exhausted_covers.
Qed.

(** ** Shortening on the two sides of the lookup *)

Lemma rindex_None (s : str) (c : ascii) : c ∉ s → rindex s c = None.
Proof.
  induction s as [|a s IH]; intros Hout; simpl; [done|].
  rewrite IH by (intros Hin; apply Hout, elem_of_cons; auto).
  destruct (Ascii.eqb a c) eqn:Hac; [|done].
  apply Ascii.eqb_eq in Hac. subst a. destruct Hout. apply elem_of_cons. auto.
Qed.

Lemma rindex_last (s tail : str) (c : ascii) :
  c ∉ tail → rindex (s ++ c :: tail) c = Some (length s).
Proof.
  intros Hout. induction s as [|a s IH]; simpl.
  - now rewrite (rindex_None _ _ Hout), Ascii.eqb_refl.
  - now rewrite IH.
Qed.

Section ShorteningProperties.

Context {cfg : Config}.

(** The key filed for a counter candidate is the model name cut where
    the candidate was cut. *)
Lemma shortened_model_name_of_candidate model_name counter :
  counter < 1000 →
  length TUNA_DEPLOYMENT_NAME_PREFIX ≤ 35 - decimal_width counter →
  shortened_model_name
    (new_name (TUNA_DEPLOYMENT_NAME_PREFIX ++ model_name) counter)
  = Ok (take (35 - decimal_width counter - length TUNA_DEPLOYMENT_NAME_PREFIX)
          model_name).
Proof.
  intros Hc Hp. unfold shortened_model_name, new_name.
  rewrite (truncation_index _ Hc).
  change (lit "-" ++ str_of_nat counter)
    with ("-"%char :: str_of_nat counter).
  rewrite rindex_last by (by apply str_of_nat_no_dash).
  f_equal. unfold slice_to at 1.
  destruct (Z.leb_spec 0 (Z.of_nat (length
    (slice_to (TUNA_DEPLOYMENT_NAME_PREFIX ++ model_name)
       (Z.of_nat (35 - decimal_width counter)))))) as [_|Hneg]; [|lia].
  rewrite Nat2Z.id, take_app_length.
  unfold slice_to, slice_from, len.
  destruct (Z.leb_spec 0 (Z.of_nat (35 - decimal_width counter)))
    as [_|Hneg]; [|lia].
  destruct (Z.leb_spec 0 (Z.of_nat (length TUNA_DEPLOYMENT_NAME_PREFIX)))
    as [_|Hneg]; [|lia].
  rewrite !Nat2Z.id, take_app_ge by exact Hp.
  now rewrite drop_app_length.
Qed.

(** Where prefix and model name together have at most 32 characters, no
    candidate is cut and both sides of the lookup use the whole model
    name. *)
Lemma shortening_agrees_up_to_32 model_name counter :
  counter < 999 →
  length (TUNA_DEPLOYMENT_NAME_PREFIX ++ model_name) ≤ 32 →
  shortened_model_name
    (new_name (TUNA_DEPLOYMENT_NAME_PREFIX ++ model_name) counter)
  = Ok (cur_shorten_model_name model_name)
  ∧ cur_shorten_model_name model_name = model_name.
Proof.
  intros Hc Hlen. rewrite length_app in Hlen.
  assert (Hw : decimal_width counter ≤ 3)
    by (unfold decimal_width; repeat case_match; lia).
  assert (Hcur : cur_shorten_model_name model_name = model_name).
  { unfold cur_shorten_model_name. apply slice_to_all. unfold len. lia. }
  split; [|done].
  rewrite shortened_model_name_of_candidate by lia.
  rewrite Hcur. f_equal. apply take_ge. lia.
Qed.

End ShorteningProperties.

(** C1, at a model name of 28 characters.  On an empty inventory
    [_generate_model_deployment_name] names its deployment with counter 0
    and no truncation; the index files that deployment under the whole
    model name, while the lookup of [_get_models_map] cuts the model name
    to 27 characters.  The two keys differ, and the trained model whose
    deployment is Ready is reported as [Ready] without deployments. *)
Theorem shortening_differs_on_long_name :
  @_generate_model_deployment_name sample_config (snapshot_client [] [] [])
    zero_rng long_model_name = Ok long_deployment_name
  ∧ @shortened_model_name sample_config long_deployment_name
    = Ok long_model_name
  ∧ @cur_shorten_model_name sample_config long_model_name
    = lit "abcdefghijklmnopqrstuvwxyz0"
  ∧ Ok (@cur_shorten_model_name sample_config long_model_name)
    ≠ @shortened_model_name sample_config long_deployment_name
  ∧ @_get_models_map sample_config long_client
    = Ok [(long_model_name,
           {| folder_name := long_model_name;
              tuna_model_state := Ready;
              deployments := None;
              job_name := None |})].
Proof.
  split; [vm_compute; reflexivity|].
  split; [vm_compute; reflexivity|].
  split; [vm_compute; reflexivity|].
  split; [vm_compute; discriminate|].
  vm_compute; reflexivity.
Qed.

(** C2 as stated fails: with the 999 candidates for "delta" and the name
    "tuna-deltaaaaa" in use and a generator that draws the letter a four
    times, the fallback returns a name that is in use. *)
Lemma fallback_may_collide :
  (∀ counter, counter < 999 →
     new_name (@TUNA_DEPLOYMENT_NAME_PREFIX sample_config ++ lit "delta") counter
     ∈ deployment_names crowded_deployments)
  ∧ @_generate_model_deployment_name sample_config crowded_client zero_rng
      (lit "delta") = Ok (lit "tuna-deltaaaaa")
  ∧ lit "tuna-deltaaaaa" ∈ deployment_names crowded_deployments.
Proof.
  split; [exact crowded_covers|]. split.
  - rewrite (@fallback_reached sample_config crowded_client crowded_deployments
               zero_rng (lit "delta") eq_refl crowded_covers).
    reflexivity.
  - unfold deployment_names, crowded_deployments.
    apply elem_of_list_to_set. rewrite map_cons. apply elem_of_cons. now left.
Qed.

(** ** Instances on the sample inventories *)

Lemma generated_name_within_limit_witness :
  deployment_list_all sample_client = Ok sample_deployments
  ∧ ∃ name,
      @_generate_model_deployment_name sample_config sample_client zero_rng
        (lit "delta") = Ok name
      ∧ length name ≤ 36.
Proof.
  split; [reflexivity|].
  apply (@generated_name_within_limit sample_config sample_client
           sample_deployments zero_rng (lit "delta") eq_refl).
Defined.

Lemma generated_name_deterministic_witness :
  ∃ name,
    @_generate_model_deployment_name sample_config sample_client zero_rng
      (lit "delta") = Ok name
    ∧ @_generate_model_deployment_name sample_config sample_client S
        (lit "delta") = Ok name.
Proof.
  apply (@generated_name_deterministic sample_config sample_client
           sample_deployments zero_rng S (lit "delta") eq_refl).
  exists 2. split; [lia|].
  apply (bool_decide_unpack _). vm_compute. exact I.
Defined.

Lemma fallback_name_witness :
  @_generate_model_deployment_name sample_config exhausted_client zero_rng
    (lit "delta") = Ok (lit "tuna-deltaaaaa")
  ∧ lit "tuna-deltaaaaa" ∉ deployment_names exhausted_deployments.
Proof.
  pose proof (@fallback_name sample_config exhausted_client
                exhausted_deployments zero_rng (lit "delta") eq_refl
                exhausted_covers) as (Hname & _ & _ & _ & _ & Hfree).
  split; [exact Hname | exact (Hfree exhausted_only)].
Defined.

Lemma deployment_index_aggregates_witness :
  ∃ index,
    @_build_shortened_model_name_deployment_map sample_config sample_client
    = Ok index
    ∧ ∃ state,
        index !! lit "delta"
        = Some (state, [lit "tuna-delta-0 (Not Ready)";
                        lit "tuna-delta-1 (Starting)"])
        ∧ (state = Running ↔
           ∃ deployment,
             deployment
               ∈ @matching_deployments sample_config sample_deployments
                   (lit "delta")
             ∧ deployment_status_state deployment
                 ∈ [DepReady; DepStarting; DepUpdating])
        ∧ (state ≠ Running → state = Stopped).
Proof.
  destruct (@deployment_index_aggregates sample_config sample_client
              sample_deployments eq_refl sample_prefix_has_dash)
    as (index & Hbuild & Hkeys).
  exists index. split; [exact Hbuild|].
  destruct (Hkeys (lit "delta")) as [_ Hsome].
  apply Hsome. vm_compute. discriminate.
Defined.

Lemma train_failed_without_running_job_witness :
  ∃ models,
    @_get_models_map sample_config sample_client = Ok models
    ∧ dict_get models (lit "gamma")
      = Some {| folder_name := lit "gamma";
                tuna_model_state := TrainFailed;
                deployments := None;
                job_name := Some (lit "train-job-gamma") |}.
Proof.
  destruct (@train_failed_without_running_job sample_config sample_client
              sample_jobs sample_deployments _ (lit "gamma")
              [file_entry "gamma_info.json"]
              sample_fetched sample_prefix_has_dash)
    as (models & Hmap & Hget).
  - vm_compute. repeat constructor.
  - reflexivity.
  - simpl. lia.
  - apply (bool_decide_unpack _). vm_compute. exact I.
  - exists models. split; [exact Hmap|]. rewrite Hget. reflexivity.
Defined.

Lemma training_with_running_job_witness :
  ∃ models,
    @_get_models_map sample_config sample_client = Ok models
    ∧ dict_get models (lit "alpha")
      = Some {| folder_name := lit "alpha";
                tuna_model_state := Training;
                deployments := None;
                job_name := Some (lit "train-job-alpha") |}.
Proof.
  apply (@training_with_running_job sample_config sample_client
           sample_jobs sample_deployments _ (lit "alpha")
           sample_fetched sample_prefix_has_dash).
  - vm_compute. repeat constructor.
  - apply (bool_decide_unpack _). vm_compute. exact I.
Defined.

Lemma absent_root_gives_empty_map_witness :
  @_get_models_map sample_config fresh_client = Ok [].
Proof.
  apply (@absent_root_gives_empty_map sample_config fresh_client).
  right. split; [exists true|]; reflexivity.
Defined.

Lemma state_never_unknown_witness :
  tuna_model_state
    {| folder_name := lit "delta"; tuna_model_state := Running;
       deployments := Some [lit "tuna-delta-0 (Not Ready)";
                            lit "tuna-delta-1 (Starting)"];
       job_name := None |}
  ∈ [Training; Ready; Running; TrainFailed; Stopped]
  ∧ tuna_model_state
      {| folder_name := lit "delta"; tuna_model_state := Running;
         deployments := Some [lit "tuna-delta-0 (Not Ready)";
                              lit "tuna-delta-1 (Starting)"];
         job_name := None |}
    ≠ Unknown.
Proof.
  apply (@state_never_unknown sample_config sample_client sample_models
           (lit "delta")).
  - vm_compute. reflexivity.
  - unfold sample_models. repeat constructor.
Defined.

Lemma empty_directory_is_train_failed_witness :
  @_model_train_completed sample_config sample_client (lit "epsilon")
  = Ok false
  ∧ ∃ models,
      @_get_models_map sample_config sample_client = Ok models
      ∧ dict_get models (lit "epsilon")
        = Some {| folder_name := lit "epsilon";
                  tuna_model_state := TrainFailed;
                  deployments := None;
                  job_name := None |}.
Proof.
  apply (@empty_directory_is_train_failed sample_config sample_client
           sample_jobs sample_deployments _ (lit "epsilon")
           sample_fetched sample_prefix_has_dash).
  - vm_compute. repeat constructor.
  - reflexivity.
  - apply (bool_decide_unpack _). vm_compute. exact I.
  - apply (bool_decide_unpack _). vm_compute. exact I.
Defined.

(** The fallback name has no counter suffix: its last dash is the one of
    the prefix, and the index files it under the empty key. *)
Lemma fallback_name_is_filed_under_empty_key :
  @shortened_model_name sample_config (lit "tuna-deltaaaaa") = Ok []
  ∧ @cur_shorten_model_name sample_config (lit "delta") = lit "delta".
Proof. split; vm_compute; reflexivity. Qed.

(** * Further properties of the naming engine *)

Lemma str_of_nat_value (n : nat) :
  n < 1000 → digits_value (str_of_nat n) 0 = n.
Proof.
  intros Hn.
  assert (Hall : forallb (λ c, digits_value (str_of_nat c) 0 =? c)
                   (seq 0 1000) = true) by (vm_compute; reflexivity).
  rewrite forallb_forall in Hall.
  apply Nat.eqb_eq, Hall, in_seq. lia.
Qed.

Lemma str_of_nat_inj (n m : nat) :
  n < 1000 → m < 1000 → str_of_nat n = str_of_nat m → n = m.
Proof.
  intros Hn Hm Heq.
  rewrite <- (str_of_nat_value n Hn), <- (str_of_nat_value m Hm).
  now rewrite Heq.
Qed.

(** Two strings that end in a dash followed by dash-free tails are equal
    only if the tails are. *)
Lemma dash_tail_inj (s1 s2 t1 t2 : str) :
  "-"%char ∉ t1 → "-"%char ∉ t2 →
  s1 ++ "-"%char :: t1 = s2 ++ "-"%char :: t2 → s1 = s2 ∧ t1 = t2.
Proof.
  intros H1 H2 Heq.
  assert (Hlen : length s1 = length s2).
  { pose proof (rindex_last s1 t1 "-" H1) as Hr1.
    pose proof (rindex_last s2 t2 "-" H2) as Hr2.
    rewrite Heq in Hr1. congruence. }
  apply app_inj_1 in Heq as [Hs Ht]; [|exact Hlen].
  split; [exact Hs | congruence].
Qed.

Lemma new_name_split (base_name : str) (counter : nat) :
  new_name base_name counter
  = slice_to base_name (36 - (len (str_of_nat counter) + 1))%Z
      ++ "-"%char :: str_of_nat counter.
Proof. reflexivity. Qed.

Lemma new_name_counter_inj (base_name : str) (counter1 counter2 : nat) :
  counter1 < 1000 → counter2 < 1000 →
  new_name base_name counter1 = new_name base_name counter2 →
  counter1 = counter2.
Proof.
  intros H1 H2 Heq. rewrite !new_name_split in Heq.
  apply dash_tail_inj in Heq as [_ Hd]; try (by apply str_of_nat_no_dash).
  by apply str_of_nat_inj.
Qed.

(** X2.  The counter candidates of one base name are pairwise distinct:
    two different counters below 1000 never give the same name, however
    the base name is truncated. *)
Theorem distinct_counters_distinct_names (base_name : str)
    (counter1 counter2 : nat) :
  counter1 < 1000 → counter2 < 1000 → counter1 ≠ counter2 →
  new_name base_name counter1 ≠ new_name base_name counter2.
Proof.
  intros H1 H2 Hne Heq. apply Hne. rewrite !new_name_split in Heq.
  apply dash_tail_inj in Heq as [_ Hd]; try (by apply str_of_nat_no_dash).
  by apply str_of_nat_inj.
Qed.

Lemma counter_loop_first names base_name n counter name :
  counter_loop names base_name n counter = Some name →
  ∃ k, counter ≤ k < counter + n
    ∧ name = new_name base_name k
    ∧ (name ∉ names)
    ∧ (∀ j, counter ≤ j < k → new_name base_name j ∈ names).
Proof.
  revert counter. induction n as [|n IH]; intros counter Hloop; simpl in Hloop.
  - discriminate.
  - destruct (decide (new_name base_name counter ∈ names)) as [Hin|Hout].
    + destruct (IH _ Hloop) as (k & Hk & Hname & Hfree & Hbelow).
      exists k. split; [lia|]. split; [done|]. split; [done|].
      intros j Hj. destruct (decide (j = counter)) as [->|Hne]; [done|].
      apply Hbelow. lia.
    + injection Hloop as <-. exists counter.
      split; [lia|]. split; [done|]. split; [done|]. intros j Hj. lia.
Qed.

Lemma candidates_NoDup (base_name : str) :
  NoDup (map (new_name base_name) (seq 0 999)).
Proof.
  apply (NoDup_fmap_2_strong (new_name base_name)); [|apply NoDup_seq].
  intros c1 c2 Hc1 Hc2. apply elem_of_seq in Hc1, Hc2.
  apply new_name_counter_inj; lia.
Qed.

Lemma deployment_names_size (deployments : list LeptonDeployment) :
  size (deployment_names deployments) ≤ length deployments.
Proof.
  unfold deployment_names.
  induction deployments as [|d rest IH].
  - simpl. change (size (∅ : gset (list ascii)) ≤ 0). now rewrite size_empty.
  - rewrite map_cons, list_to_set_cons, size_union_alt, size_singleton.
    simpl length.
    assert (Hsub :
      (list_to_set (map deployment_metadata_name rest) : gset (list ascii))
        ∖ {[deployment_metadata_name d]}
      ⊆ list_to_set (map deployment_metadata_name rest))
      by (intros x Hx; apply elem_of_difference in Hx as [Hx _]; exact Hx).
    apply subseteq_size in Hsub. lia.
Qed.

Section MoreNamingProperties.

Context {cfg : Config}.

(** X1.  When some counter below 999 gives a name that is not in use, the
    function returns the candidate of the smallest such counter: the
    returned name is not in use and every candidate of a smaller counter
    is. *)
Theorem first_free_candidate client deployments rng model_name counter :
  deployment_list_all client = Ok deployments →
  counter < 999 →
  new_name (TUNA_DEPLOYMENT_NAME_PREFIX ++ model_name) counter
    ∉ deployment_names deployments →
  ∃ k, k ≤ counter
    ∧ _generate_model_deployment_name client rng model_name
      = Ok (new_name (TUNA_DEPLOYMENT_NAME_PREFIX ++ model_name) k)
    ∧ (new_name (TUNA_DEPLOYMENT_NAME_PREFIX ++ model_name) k
         ∉ deployment_names deployments)
    ∧ (∀ j, j < k →
         new_name (TUNA_DEPLOYMENT_NAME_PREFIX ++ model_name) j
         ∈ deployment_names deployments).
Proof.
  intros Hlist Hc Hfree.
  destruct (counter_loop_finds (deployment_names deployments)
              (TUNA_DEPLOYMENT_NAME_PREFIX ++ model_name) 999 0 counter
              ltac:(lia) Hfree) as [name Hloop].
  destruct (counter_loop_first _ _ _ _ _ Hloop)
    as (k & Hk & -> & Hout & Hbelow).
  exists k. split.
  { destruct (decide (k ≤ counter)) as [|Hgt]; [done|].
    destruct Hfree. apply Hbelow. lia. }
  split.
  { unfold _generate_model_deployment_name.
    rewrite Hlist, bind_Ok. cbv zeta. now rewrite Hloop. }
  split; [done|]. intros j Hj. apply Hbelow. lia.
Qed.

(** X3.  With fewer than 999 deployments in the inventory the exhaustion
    fallback is out of reach: the function returns a counter candidate
    that is not in use, whatever the random draws are. *)
Theorem fallback_out_of_reach client deployments rng model_name :
  deployment_list_all client = Ok deployments →
  length deployments < 999 →
  ∃ counter, counter < 999
    ∧ _generate_model_deployment_name client rng model_name
      = Ok (new_name (TUNA_DEPLOYMENT_NAME_PREFIX ++ model_name) counter)
    ∧ (new_name (TUNA_DEPLOYMENT_NAME_PREFIX ++ model_name) counter
         ∉ deployment_names deployments).
Proof.
  intros Hlist Hfew.
  set (base_name := TUNA_DEPLOYMENT_NAME_PREFIX ++ model_name).
  destruct (counter_loop (deployment_names deployments) base_name 999 0)
    as [name|] eqn:Hloop.
  - destruct (counter_loop_first _ _ _ _ _ Hloop) as (k & Hk & -> & Hout & _).
    exists k. split; [lia|]. split; [|done].
    unfold _generate_model_deployment_name.
    rewrite Hlist, bind_Ok. cbv zeta. fold base_name. now rewrite Hloop.
  - exfalso.
    assert (Hsub : (list_to_set (map (new_name base_name) (seq 0 999))
                      : gset (list ascii))
                   ⊆ deployment_names deployments).
    { intros name Hin. apply elem_of_list_to_set in Hin.
      apply list_elem_of_In, in_map_iff in Hin as (k & <- & Hk).
      apply in_seq in Hk.
      apply (proj1 (counter_loop_None _ _ _ _) Hloop). lia. }
    apply subseteq_size in Hsub.
    rewrite size_list_to_set in Hsub by apply candidates_NoDup.
    rewrite length_map, length_seq in Hsub.
    pose proof (deployment_names_size deployments). lia.
Qed.

(** X4.  For a counter candidate the key filed by the index equals the
    key looked up by the aggregator exactly when prefix and model name
    together have at most 32 characters or the counter has three
    digits. *)
Theorem shortening_agrees_iff model_name counter :
  counter < 999 →
  length TUNA_DEPLOYMENT_NAME_PREFIX ≤ 32 →
  shortened_model_name
    (new_name (TUNA_DEPLOYMENT_NAME_PREFIX ++ model_name) counter)
  = Ok (cur_shorten_model_name model_name)
  ↔ length (TUNA_DEPLOYMENT_NAME_PREFIX ++ model_name) ≤ 32 ∨ 100 ≤ counter.
Proof.
  intros Hc Hp.
  assert (Hw : 1 ≤ decimal_width counter ≤ 3
               ∧ (decimal_width counter = 3 ↔ 100 ≤ counter)).
  { unfold decimal_width. repeat case_match;
      repeat match goal with
             | H : (_ <? _) = true |- _ => apply Nat.ltb_lt in H
             | H : (_ <? _) = false |- _ => apply Nat.ltb_ge in H
             end; lia. }
  rewrite shortened_model_name_of_candidate by lia.
  assert (Hcur : cur_shorten_model_name model_name
                 = take (32 - length TUNA_DEPLOYMENT_NAME_PREFIX) model_name).
  { unfold cur_shorten_model_name, slice_to, len.
    destruct (Z.leb_spec 0 (32 - Z.of_nat (length TUNA_DEPLOYMENT_NAME_PREFIX)))
      as [_|Hneg]; [|lia].
    f_equal. lia. }
  rewrite Hcur, length_app. split.
  - intros Heq. injection Heq as Heq.
    apply (f_equal length) in Heq. rewrite !length_take in Heq. lia.
  - intros [Hshort|Hbig].
    + now rewrite !take_ge by lia.
    + do 2 f_equal. lia.
Qed.

(** X5.  A model name is recovered from its job name and from its output
    path by dropping the constant in front, so two models never share a
    job name or an output path. *)
Theorem derived_names_round_trip model_name :
  slice_from (_generate_job_name model_name) (len TUNA_TRAIN_JOB_NAME_PREFIX)
  = model_name
  ∧ slice_from (_generate_model_output_path model_name)
      (len (DEFAULT_TUNA_MODEL_PATH ++ lit "/"))
    = model_name
  ∧ (∀ other, _generate_job_name other = _generate_job_name model_name →
       other = model_name)
  ∧ (∀ other,
       _generate_model_output_path other
       = _generate_model_output_path model_name →
       other = model_name).
Proof.
  assert (Hdrop : ∀ (front s : str), slice_from (front ++ s) (len front) = s).
  { intros front s. unfold slice_from, len.
    destruct (Z.leb_spec 0 (Z.of_nat (length front))) as [_|Hneg]; [|lia].
    now rewrite Nat2Z.id, drop_app_length. }
  split; [apply Hdrop|]. split.
  { unfold _generate_model_output_path. rewrite app_assoc. apply Hdrop. }
  split.
  - intros other Heq. unfold _generate_job_name in Heq.
    by apply app_inv_head in Heq.
  - intros other Heq. unfold _generate_model_output_path in Heq.
    by do 2 apply app_inv_head in Heq.
Qed.

End MoreNamingProperties.

(** * Further properties of the deployment index *)

Lemma rindex_None_iff (s : str) (c : ascii) : rindex s c = None ↔ c ∉ s.
Proof.
  split; [|apply rindex_None].
  intros Hnone Hin. destruct (rindex_is_Some s c Hin) as [i Hi]. congruence.
Qed.

Lemma starts_with_app (p s : str) : starts_with p (p ++ s) = true.
Proof.
  induction p as [|a p IH]; simpl; [done|]. now rewrite Ascii.eqb_refl.
Qed.

Lemma contains_app (p s : str) : contains p (p ++ s) = true.
Proof.
  destruct (p ++ s) as [|a l] eqn:Heq; simpl; rewrite <- Heq;
    now rewrite starts_with_app.
Qed.

Section MoreIndexProperties.

Context {cfg : Config}.

Lemma index_key_None_iff deployment :
  contains TUNA_DEPLOYMENT_NAME_PREFIX (deployment_metadata_name deployment)
    = true →
  index_key deployment = None
  ↔ "-"%char ∉ deployment_metadata_name deployment.
Proof.
  intros Hc. rewrite <- rindex_None_iff.
  unfold index_key, shortened_model_name. rewrite Hc.
  now destruct (rindex (deployment_metadata_name deployment) "-").
Qed.

Lemma index_loop_raises deployments m :
  (index_loop deployments m = Raise ValueError
   ↔ ∃ deployment, deployment ∈ deployments
       ∧ contains TUNA_DEPLOYMENT_NAME_PREFIX
           (deployment_metadata_name deployment) = true
       ∧ "-"%char ∉ deployment_metadata_name deployment)
  ∧ (index_loop deployments m = Raise ValueError
     ∨ ∃ m', index_loop deployments m = Ok m').
Proof.
  revert m. induction deployments as [|d rest IH]; intros m.
  - simpl. split; [|eauto].
    split; [discriminate | intros (d & Hin & _); inversion Hin].
  - simpl.
    assert (Hrest : ∀ m1,
      (index_loop rest m1 = Raise ValueError
       ↔ ∃ deployment, deployment ∈ d :: rest
           ∧ contains TUNA_DEPLOYMENT_NAME_PREFIX
               (deployment_metadata_name deployment) = true
           ∧ "-"%char ∉ deployment_metadata_name deployment)
      ∨ (contains TUNA_DEPLOYMENT_NAME_PREFIX (deployment_metadata_name d)
           = true
         ∧ "-"%char ∉ deployment_metadata_name d)).
    { intros m1.
      destruct (contains TUNA_DEPLOYMENT_NAME_PREFIX
                  (deployment_metadata_name d)) eqn:Hc;
        [destruct (decide ("-"%char ∈ deployment_metadata_name d))
           as [Hdash|Hdash]; [|by right]|];
        left; rewrite (proj1 (IH m1)); split.
      - intros (x & Hin & Hx). exists x. split; [apply elem_of_cons; auto|done].
      - intros (x & Hin & Hcx & Hx).
        apply elem_of_cons in Hin as [->|Hin]; [done | eauto].
      - intros (x & Hin & Hx). exists x. split; [apply elem_of_cons; auto|done].
      - intros (x & Hin & Hcx & Hx).
        apply elem_of_cons in Hin as [->|Hin]; [congruence | eauto]. }
    destruct (contains TUNA_DEPLOYMENT_NAME_PREFIX
                (deployment_metadata_name d)) eqn:Hc.
    + destruct (index_key d) as [k|] eqn:Hk.
      * destruct (index_step_files m d k Hk) as (m1 & -> & _).
        rewrite bind_Ok.
        destruct (Hrest m1) as [Hiff|[_ Hbad]].
        -- split; [exact Hiff | apply IH].
        -- apply (index_key_None_iff d Hc) in Hbad. congruence.
      * rewrite (index_step_raises m d Hc Hk), bind_Raise.
        split; [|auto]. split; [intros _|done].
        exists d. split; [apply elem_of_cons; auto|].
        split; [done|]. by apply (index_key_None_iff d Hc).
    + destruct (index_step_skip m d Hc) as [-> _]. rewrite bind_Ok.
      destruct (Hrest m) as [Hiff|[Hbad _]]; [|discriminate].
      split; [exact Hiff | apply IH].
Qed.

(** X6.  Building the index raises [ValueError] exactly when some
    deployment name contains the deployment prefix but no dash; otherwise
    it returns an index.  With both storage paths present and the jobs
    listed, aggregation then raises [ValueError] as well. *)
Theorem index_raises_on_dashless_name client deployments :
  deployment_list_all client = Ok deployments →
  let dashless :=
    ∃ deployment, deployment ∈ deployments
      ∧ contains TUNA_DEPLOYMENT_NAME_PREFIX
          (deployment_metadata_name deployment) = true
      ∧ "-"%char ∉ deployment_metadata_name deployment in
  (_build_shortened_model_name_deployment_map client = Raise ValueError
   ↔ dashless)
  ∧ (¬ dashless →
     ∃ index, _build_shortened_model_name_deployment_map client = Ok index)
  ∧ (dashless →
     storage_check_exists client DEFAULT_TUNA_FOLDER = Ok true →
     storage_check_exists client DEFAULT_TUNA_MODEL_PATH = Ok true →
     (∃ jobs, job_list_all client = Ok jobs) →
     _get_models_map client = Raise ValueError).
Proof.
  intros Hlist dashless.
  assert (Hbuild : _build_shortened_model_name_deployment_map client
                   = index_loop deployments ∅).
  { unfold _build_shortened_model_name_deployment_map.
    now rewrite Hlist, bind_Ok. }
  destruct (index_loop_raises deployments ∅) as [Hiff Htotal].
  rewrite Hbuild. split; [exact Hiff|]. split.
  - intros Hnone. destruct Htotal as [Hraise|Hok]; [|exact Hok].
    destruct Hnone. by apply Hiff.
  - intros Hbad Hroot Hpath [jobs Hjobs]. unfold _get_models_map.
    rewrite Hroot, bind_Ok. cbn [negb]. rewrite Hpath, bind_Ok. cbn [negb].
    rewrite Hjobs, bind_Ok. destruct (job_sets jobs ∅ ∅) as [running failed].
    rewrite Hbuild, (proj2 Hiff Hbad). reflexivity.
Qed.

End MoreIndexProperties.

(** * Further properties of the aggregation *)

Lemma dict_set_keys {V} (d : list (str * V)) (k : str) (v : V) :
  map fst (dict_set d k v)
  = if decide (k ∈ map fst d) then map fst d else map fst d ++ [k].
Proof.
  induction d as [|[k0 v0] d IH].
  - cbn [dict_set map fst app].
    destruct (decide (k ∈ [])) as [Hin|_]; [inversion Hin | done].
  - cbn [dict_set]. destruct (decide (k0 = k)) as [->|Hne]; cbn [map fst].
    + destruct (decide (k ∈ k :: map fst d)) as [_|Hout]; [done|].
      destruct Hout. apply elem_of_cons. auto.
    + rewrite IH. destruct (decide (k ∈ map fst d)) as [Hin|Hout];
        destruct (decide (k ∈ k0 :: map fst d)) as [Hin'|Hout']; try done.
      * destruct Hout'. apply elem_of_cons. auto.
      * apply elem_of_cons in Hin' as [->|Hin']; done.
Qed.

Section MoreAggregationProperties.

Context {cfg : Config}.

Lemma models_loop_keys client running failed index model_names filed models :
  models_loop client running failed index model_names filed = Ok models →
  NoDup model_names →
  (∀ model_name, model_name ∈ model_names → model_name ∉ map fst filed) →
  map fst models = map fst filed ++ model_names.
Proof.
  revert filed. induction model_names as [|m rest IH];
    intros filed Hloop Hnodup Hfresh; simpl in Hloop.
  - injection Hloop as <-. now rewrite app_nil_r.
  - apply bind_Ok_inv in Hloop as (filed' & Hstep & Hloop).
    apply models_step_inv in Hstep as (entries & _ & ->).
    apply NoDup_cons in Hnodup as [Hm Hnodup].
    assert (Hkeys : map fst (dict_set filed m
                      (model_record running failed index m
                         (1 <? len entries)%Z))
                    = map fst filed ++ [m]).
    { rewrite dict_set_keys, decide_False; [done|].
      apply Hfresh, elem_of_cons. auto. }
    rewrite (IH _ Hloop Hnodup), Hkeys, <- app_assoc; [done|].
    intros x Hx. rewrite Hkeys. intros Hin.
    apply elem_of_app in Hin as [Hin|Hin].
    + revert Hin. apply Hfresh, elem_of_cons. auto.
    + apply elem_of_cons in Hin as [->|Hin]; [done | inversion Hin].
Qed.

(** X7.  The keys of the returned mapping are the names of the entries of
    type "dir" of the models root, in listing order (the names of a
    listing being pairwise distinct); entries of other types get no
    record. *)
Theorem models_in_listing_order client jobs deployments dir_infos :
  fetched client jobs deployments dir_infos →
  "-"%char ∈ TUNA_DEPLOYMENT_NAME_PREFIX →
  NoDup (model_names_of dir_infos) →
  ∃ models,
    _get_models_map client = Ok models
    ∧ map fst models
      = map dir_info_name
          (filter (λ dir_info, dir_info_type dir_info = lit "dir") dir_infos)
    ∧ (∀ name, dict_get models name ≠ None →
         ∃ dir_info, dir_info ∈ dir_infos
           ∧ dir_info_name dir_info = name
           ∧ dir_info_type dir_info = lit "dir").
Proof.
  intros Hfetched Hdash Hnodup.
  destruct (get_models_map_fetched _ _ _ _ Hfetched Hdash)
    as (index & models & _ & Hmap & Hloop).
  exists models. split; [done|]. split.
  - rewrite (models_loop_keys _ _ _ _ _ _ _ Hloop Hnodup); [done|].
    intros x _ Hin. inversion Hin.
  - intros name Hsome.
    destruct (decide (name ∈ model_names_of dir_infos)) as [Hin|Hout].
    + unfold model_names_of in Hin.
      apply list_elem_of_In, in_map_iff in Hin as (dir_info & <- & Hin).
      apply list_elem_of_In, list_elem_of_filter in Hin as [Htype Hin].
      eauto.
    + destruct Hsome.
      now rewrite (proj2 (models_loop_lookup _ _ _ _ _ _ _ name Hloop) Hout).
Qed.

(** The record of a trained model without running job, in terms of the
    inventory. *)
Lemma trained_idle_lookup client jobs deployments dir_infos model_name entries :
  fetched client jobs deployments dir_infos →
  "-"%char ∈ TUNA_DEPLOYMENT_NAME_PREFIX →
  model_name ∈ model_names_of dir_infos →
  storage_get_dir client (DEFAULT_TUNA_MODEL_PATH ++ lit "/" ++ model_name)
    = Ok entries →
  1 < length entries →
  _generate_job_name model_name ∉ running_jobs jobs →
  ∃ models,
    _get_models_map client = Ok models
    ∧ dict_get models model_name
      = Some
          match absorb_all None
                  (matching_deployments deployments
                     (cur_shorten_model_name model_name)) with
          | Some info =>
              {| folder_name := model_name;
                 tuna_model_state := info.1;
                 deployments := Some info.2;
                 job_name := None |}
          | None =>
              {| folder_name := model_name;
                 tuna_model_state := Ready;
                 deployments := None;
                 job_name := None |}
          end.
Proof.
  intros Hfetched Hdash Hlisted Hdir Hlen Hidle.
  destruct (get_models_map_fetched _ _ _ _ Hfetched Hdash)
    as (index & models & Hbuild & Hmap & Hloop).
  exists models. split; [done|].
  destruct (proj1 (models_loop_lookup _ _ _ _ _ _ _ model_name Hloop) Hlisted)
    as (entries' & Hdir' & ->).
  rewrite Hdir in Hdir'. injection Hdir' as <-.
  unfold model_record.
  replace (1 <? len entries)%Z with true
    by (symmetry; apply Z.ltb_lt; unfold len; lia).
  cbn [negb andb]. rewrite bool_decide_eq_true_2 by done.
  destruct Hfetched as (_ & _ & _ & Hdeps & _).
  unfold _build_shortened_model_name_deployment_map in Hbuild.
  rewrite Hdeps, bind_Ok in Hbuild.
  rewrite (index_loop_lookup _ _ _ Hbuild), lookup_empty. reflexivity.
Qed.

(** X8.  A listed model whose directory has more than one entry and whose
    job is not running is filed from the deployment inventory alone: with
    no deployment under its shortened name it is [Ready] without
    deployments; otherwise it is [Running] if one of those deployments is
    Ready, Starting or Updating and [Stopped] if none is, and its
    deployments are their entries in inventory order.  Its [job_name] is
    unset, also when its job is listed as failed. *)
Theorem trained_model_follows_deployments client jobs deployments dir_infos
    model_name entries :
  fetched client jobs deployments dir_infos →
  "-"%char ∈ TUNA_DEPLOYMENT_NAME_PREFIX →
  model_name ∈ model_names_of dir_infos →
  storage_get_dir client (DEFAULT_TUNA_MODEL_PATH ++ lit "/" ++ model_name)
    = Ok entries →
  1 < length entries →
  _generate_job_name model_name ∉ running_jobs jobs →
  let matching :=
    matching_deployments deployments (cur_shorten_model_name model_name) in
  ∃ models,
    _get_models_map client = Ok models
    ∧ dict_get models model_name
      = Some
          (if decide (matching = []) then
             {| folder_name := model_name;
                tuna_model_state := Ready;
                deployments := None;
                job_name := None |}
           else
             {| folder_name := model_name;
                tuna_model_state :=
                  if existsb (λ d, state_in_ready_starting_updating
                                     (deployment_status_state d)) matching
                  then Running else Stopped;
                deployments := Some (map deployment_entry matching);
                job_name := None |}).
Proof.
  intros Hfetched Hdash Hlisted Hdir Hlen Hidle matching.
  destruct (trained_idle_lookup _ _ _ _ _ _ Hfetched Hdash Hlisted Hdir Hlen
              Hidle) as (models & Hmap & Hget).
  exists models. split; [done|]. rewrite Hget. fold matching.
  destruct (decide (matching = [])) as [->|Hne]; [done|].
  now rewrite absorb_all_None.
Qed.

(** X9.  Where prefix and model name together have at most 32
    characters, a deployment named by a counter candidate of a trained
    model without running job is found by the aggregator: the record
    lists the entry of that deployment, its state is [Running] or
    [Stopped], and it is [Running] when that deployment is Ready,
    Starting or Updating. *)
Theorem generated_deployment_is_found client jobs inventory dir_infos
    model_name entries counter deployment :
  fetched client jobs inventory dir_infos →
  "-"%char ∈ TUNA_DEPLOYMENT_NAME_PREFIX →
  model_name ∈ model_names_of dir_infos →
  storage_get_dir client (DEFAULT_TUNA_MODEL_PATH ++ lit "/" ++ model_name)
    = Ok entries →
  1 < length entries →
  _generate_job_name model_name ∉ running_jobs jobs →
  length (TUNA_DEPLOYMENT_NAME_PREFIX ++ model_name) ≤ 32 →
  counter < 999 →
  deployment ∈ inventory →
  deployment_metadata_name deployment
  = new_name (TUNA_DEPLOYMENT_NAME_PREFIX ++ model_name) counter →
  ∃ models model listed,
    _get_models_map client = Ok models
    ∧ dict_get models model_name = Some model
    ∧ deployments model = Some listed
    ∧ deployment_entry deployment ∈ listed
    ∧ (tuna_model_state model = Running ∨ tuna_model_state model = Stopped)
    ∧ (state_in_ready_starting_updating (deployment_status_state deployment)
         = true →
       tuna_model_state model = Running).
Proof.
  intros Hfetched Hdash Hlisted Hdir Hlen Hidle Hshort Hc Hin Hname.
  destruct (trained_idle_lookup _ _ _ _ _ _ Hfetched Hdash Hlisted Hdir Hlen
              Hidle) as (models & Hmap & Hget).
  destruct (shortening_agrees_up_to_32 model_name counter Hc Hshort)
    as [Hkey Hcur].
  assert (Hmatch : deployment
                   ∈ matching_deployments inventory
                       (cur_shorten_model_name model_name)).
  { apply list_elem_of_filter. split; [|done].
    unfold index_key. rewrite Hname, Hkey.
    replace (contains TUNA_DEPLOYMENT_NAME_PREFIX _) with true; [done|].
    symmetry. unfold new_name.
    rewrite slice_to_all.
    - rewrite <- app_assoc. apply contains_app.
    - rewrite truncation_index by lia.
      assert (decimal_width counter ≤ 3)
        by (unfold decimal_width; repeat case_match; lia).
      unfold len. lia. }
  set (matching := matching_deployments inventory
                     (cur_shorten_model_name model_name)) in *.
  assert (Hne : matching ≠ []) by (intros Hnil; rewrite Hnil in Hmatch;
                                   inversion Hmatch).
  rewrite absorb_all_None in Hget by done. cbn [fst snd] in Hget.
  eexists models, _, _. split; [done|]. split; [exact Hget|].
  cbn [deployments tuna_model_state]. split; [done|]. split.
  { apply list_elem_of_In, in_map, list_elem_of_In. exact Hmatch. }
  split.
  { destruct (existsb _ matching); auto. }
  intros Hactive.
  replace (existsb _ matching) with true; [done|].
  symmetry. apply existsb_exists. exists deployment.
  split; [by apply list_elem_of_In | done].
Qed.

End MoreAggregationProperties.

Section RecordProperties.

Context {cfg : Config}.

Lemma index_values deployments index key info :
  index_loop deployments ∅ = Ok index →
  index !! key = Some info →
  (info.1 = Running ∨ info.1 = Stopped) ∧ info.2 ≠ [].
Proof.
  intros Hloop Hget. split; [by eapply index_states|].
  rewrite (index_loop_lookup _ _ _ Hloop key), lookup_empty in Hget.
  destruct (matching_deployments deployments key) as [|d l] eqn:Hm.
  - discriminate.
  - rewrite absorb_all_None in Hget by done. injection Hget as <-.
    cbn [snd]. discriminate.
Qed.

(** X10.  In every record of a returned mapping the fields follow the
    state: the folder name is the key; a [Training] record carries the
    derived job name and no deployments; a [TrainFailed] record carries
    no deployments and either no job name or the derived one; a [Ready]
    record carries neither; a [Running] or [Stopped] record carries no
    job name and a non-empty list of deployments. *)
Theorem record_fields_follow_state client models model_name model :
  _get_models_map client = Ok models →
  (model_name, model) ∈ models →
  folder_name model = model_name
  ∧ match tuna_model_state model with
    | Training =>
        job_name model = Some (_generate_job_name model_name)
        ∧ deployments model = None
    | TrainFailed =>
        deployments model = None
        ∧ (job_name model = None
           ∨ job_name model = Some (_generate_job_name model_name))
    | Ready => deployments model = None ∧ job_name model = None
    | Running | Stopped =>
        job_name model = None
        ∧ ∃ listed, deployments model = Some listed ∧ listed ≠ []
    | Unknown => False
    end.
Proof.
  intros Hmap Hin. unfold _get_models_map in Hmap.
  apply bind_Ok_inv in Hmap as ([] & _ & Hmap); cbn [negb] in Hmap;
    [|injection Hmap as <-; inversion Hin].
  apply bind_Ok_inv in Hmap as ([] & _ & Hmap); cbn [negb] in Hmap;
    [|injection Hmap as <-; inversion Hin].
  apply bind_Ok_inv in Hmap as (jobs & _ & Hmap).
  destruct (job_sets jobs ∅ ∅) as [running failed].
  apply bind_Ok_inv in Hmap as (index & Hbuild & Hmap).
  apply bind_Ok_inv in Hmap as (names & _ & Hloop).
  unfold _build_shortened_model_name_deployment_map in Hbuild.
  apply bind_Ok_inv in Hbuild as (inventory & _ & Hindex).
  destruct (models_loop_entries _ _ _ _ _ _ _ _ Hloop Hin)
    as [Hnil|[completed Hrec]]; [inversion Hnil|].
  cbn [fst snd] in Hrec. subst model. unfold model_record.
  destruct (negb completed && _).
  { cbn. split; [done|]. split; [done|].
    destruct (decide (_ ∈ failed)); auto. }
  destruct (bool_decide _); [|cbn; auto].
  destruct (index !! _) as [info|] eqn:Hget; [|cbn; auto].
  destruct (index_values _ _ _ _ Hindex Hget) as [Hstate Hne].
  cbn. split; [done|].
  destruct Hstate as [-> | ->]; (split; [done | eauto]).
Qed.

Lemma models_loop_fails client running failed index model_names filed
    model_name e :
  model_name ∈ model_names →
  storage_get_dir client (DEFAULT_TUNA_MODEL_PATH ++ lit "/" ++ model_name)
    = Raise e →
  ∃ e', models_loop client running failed index model_names filed = Raise e'.
Proof.
  intros Hin Hdir. revert filed.
  induction model_names as [|m rest IH]; intros filed; [inversion Hin|].
  simpl.
  destruct (models_step client running failed index filed m)
    as [filed'|e'] eqn:Hstep; [|eauto].
  rewrite bind_Ok.
  apply elem_of_cons in Hin as [->|Hin]; [|by apply IH].
  apply models_step_inv in Hstep as (entries & Hdir' & _). congruence.
Qed.

(** X11.  Aggregation returns no partial mapping: with both storage
    paths present and the models root listed, a listed model whose
    directory cannot be listed makes the whole aggregation raise. *)
Theorem failed_listing_fails_aggregation client dir_infos model_name e :
  storage_check_exists client DEFAULT_TUNA_FOLDER = Ok true →
  storage_check_exists client DEFAULT_TUNA_MODEL_PATH = Ok true →
  storage_get_dir client DEFAULT_TUNA_MODEL_PATH = Ok dir_infos →
  model_name ∈ model_names_of dir_infos →
  storage_get_dir client (DEFAULT_TUNA_MODEL_PATH ++ lit "/" ++ model_name)
    = Raise e →
  ∃ e', _get_models_map client = Raise e'.
Proof.
  intros Hroot Hpath Hlisting Hin Hdir. unfold _get_models_map.
  rewrite Hroot, bind_Ok. cbn [negb]. rewrite Hpath, bind_Ok. cbn [negb].
  destruct (job_list_all client) as [jobs|e1]; [|eauto].
  rewrite bind_Ok. destruct (job_sets jobs ∅ ∅) as [running failed].
  destruct (_build_shortened_model_name_deployment_map client)
    as [index|e2]; [|eauto].
  rewrite bind_Ok. unfold _get_model_names. rewrite Hlisting, !bind_Ok.
  by eapply models_loop_fails.
Qed.

End RecordProperties.

(** * Properties of the commands *)

Lemma split_first (s tail : str) (sep : ascii) :
  sep ∉ s → ∃ pieces, split (s ++ sep :: tail) sep = s :: pieces.
Proof.
  induction s as [|a s IH]; intros Hout; simpl.
  - rewrite Ascii.eqb_refl. eauto.
  - destruct (Ascii.eqb a sep) eqn:Ha.
    + apply Ascii.eqb_eq in Ha. subst a. destruct Hout. apply elem_of_cons. auto.
    + destruct IH as [pieces ->]; [|eauto].
      intros Hin. apply Hout, elem_of_cons. auto.
Qed.

Lemma split_whole (s : str) (sep : ascii) : sep ∉ s → split s sep = [s].
Proof.
  induction s as [|a s IH]; intros Hout; simpl; [done|].
  destruct (Ascii.eqb a sep) eqn:Ha.
  - apply Ascii.eqb_eq in Ha. subst a. destruct Hout. apply elem_of_cons. auto.
  - rewrite IH; [done|]. intros Hin. apply Hout, elem_of_cons. auto.
Qed.

Lemma split_nonempty (s : str) (sep : ascii) : split s sep ≠ [].
Proof.
  destruct s as [|a s]; simpl; [done|].
  destruct (Ascii.eqb a sep); [done|]. now destruct (split s sep).
Qed.

Lemma hd_split_cons (a : ascii) (s : str) (sep : ascii) :
  Ascii.eqb a sep = false →
  hd [] (split (a :: s) sep) = a :: hd [] (split s sep).
Proof.
  intros Ha. simpl. rewrite Ha.
  pose proof (split_nonempty s sep). now destruct (split s sep).
Qed.

Lemma hd_split_app (s tail : str) (sep : ascii) :
  hd [] (split (s ++ sep :: tail) sep) = hd [] (split s sep).
Proof.
  induction s as [|a s IH].
  - simpl. now rewrite Ascii.eqb_refl.
  - destruct (Ascii.eqb a sep) eqn:Ha.
    + simpl. now rewrite Ha.
    + rewrite <- app_comm_cons, !hd_split_cons by done. now rewrite IH.
Qed.

Lemma hd_split_no_sep (s : str) (sep : ascii) : sep ∉ hd [] (split s sep).
Proof.
  induction s as [|a s IH].
  - simpl. intros Hin. inversion Hin.
  - destruct (Ascii.eqb a sep) eqn:Ha.
    + simpl. rewrite Ha. simpl. intros Hin. inversion Hin.
    + rewrite hd_split_cons by done. intros Hin.
      apply elem_of_cons in Hin as [->|Hin]; [|done].
      now rewrite Ascii.eqb_refl in Ha.
Qed.

Lemma entry_name_read_back (deployment : LeptonDeployment) :
  " "%char ∉ deployment_metadata_name deployment →
  hd [] (split (deployment_entry deployment) " ")
  = deployment_metadata_name deployment.
Proof.
  intros Hout. unfold deployment_entry.
  change (lit " (" ++ ?rest) with (" "%char :: "("%char :: rest).
  rewrite hd_split_app. now rewrite split_whole.
Qed.

(** X13.  The name that [remove] reads back from an entry
    "<name> (<status>)" of a record, the part before the first space, is
    the part of the deployment name before its first space, whatever the
    status is; it is the deployment name exactly when that name has no
    space. *)
Theorem deployment_entry_round_trip (deployment : LeptonDeployment) :
  hd [] (split (deployment_entry deployment) " ")
  = hd [] (split (deployment_metadata_name deployment) " ")
  ∧ (hd [] (split (deployment_entry deployment) " ")
     = deployment_metadata_name deployment
     ↔ " "%char ∉ deployment_metadata_name deployment).
Proof.
  assert (Hhd : hd [] (split (deployment_entry deployment) " ")
                = hd [] (split (deployment_metadata_name deployment) " ")).
  { unfold deployment_entry.
    change (lit " (" ++ ?rest) with (" "%char :: "("%char :: rest).
    apply hd_split_app. }
  split; [exact Hhd|]. split.
  - intros Heq. rewrite <- Heq. apply hd_split_no_sep.
  - apply entry_name_read_back.
Qed.

(** X14.  The [env] entry saved with a model keeps the names and drops
    the values: an element "<name>=<value>" whose name has no equals sign
    is saved as "<name>=<---secret--->", whatever the value is, and the
    entry has one element per element of [env], in the same order. *)
Theorem params_env_hides_values (env : list (str * str)) :
  Forall (λ element, "="%char ∉ element.1) env →
  params_env (map (λ element, element.1 ++ "="%char :: element.2) env)
  = map (λ element, element.1 ++ lit "=<---secret--->") env.
Proof.
  intros Hall. unfold params_env. rewrite map_map.
  induction Hall as [|[name value] rest Hname Hrest IH]; simpl; [done|].
  f_equal; [|exact IH].
  now destruct (split_first name value "=" Hname) as [pieces ->].
Qed.

Section CommandProperties.

Context {cfg : Config}.

Variable check_name_regex : str → bool.

(** X12.  The [--name] callback of [train] checks the name behind the
    longer of the two prefixes against a limit of 36 characters.  It
    accepts a name exactly when that full name passes [check_name_regex]
    and has at most 36 characters; it returns an accepted name unchanged,
    and for an accepted name both the job name and the deployment prefix
    followed by the name have at most 36 characters. *)
Theorem train_name_validator_bounds (value : str) :
  let prefix :=
    if (len TUNA_TRAIN_JOB_NAME_PREFIX <? len TUNA_DEPLOYMENT_NAME_PREFIX)%Z
    then TUNA_DEPLOYMENT_NAME_PREFIX else TUNA_TRAIN_JOB_NAME_PREFIX in
  (train_name_validator check_name_regex value = Accepted value
   ↔ check_name_regex (prefix ++ value) = true
     ∧ length (prefix ++ value) ≤ 36)
  ∧ (∀ accepted,
       train_name_validator check_name_regex value = Accepted accepted →
       accepted = value
       ∧ length (_generate_job_name value) ≤ 36
       ∧ length (TUNA_DEPLOYMENT_NAME_PREFIX ++ value) ≤ 36).
Proof.
  intros prefix.
  assert (Hiff : ∀ accepted,
            train_name_validator check_name_regex value = Accepted accepted
            ↔ accepted = value
              ∧ check_name_regex (prefix ++ value) = true
              ∧ length (prefix ++ value) ≤ 36).
  { intros accepted. unfold train_name_validator, _create_name_validator.
    fold prefix. destruct (check_name_regex (prefix ++ value)); cbn [negb].
    - change (negb (36 =? 0)%Z) with true. cbn [andb].
      destruct (Z.ltb_spec 36 (len (prefix ++ value))) as [Hlong|Hshort].
      + split; [discriminate|]. unfold len in Hlong. lia.
      + split.
        * intros [= <-]. unfold len in Hshort. split; [done|]. split; [done|lia].
        * now intros (-> & _ & _).
    - split; [discriminate | intros (_ & Hfalse & _); discriminate]. }
  split.
  - rewrite Hiff. tauto.
  - intros accepted Haccepted. apply Hiff in Haccepted as (-> & _ & Hlen).
    split; [done|]. unfold _generate_job_name, prefix in *.
    rewrite !length_app in *.
    destruct (Z.ltb_spec (len TUNA_TRAIN_JOB_NAME_PREFIX)
                (len TUNA_DEPLOYMENT_NAME_PREFIX)) as [Hlt|Hge];
      unfold len in *; rewrite ?length_app in Hlen; lia.
Qed.

End CommandProperties.

Lemma dict_get_elem {V} (d : list (str * V)) (k : str) (v : V) :
  dict_get d k = Some v → (k, v) ∈ d.
Proof.
  induction d as [|[k0 v0] d IH]; simpl; [discriminate|].
  destruct (decide (k0 = k)) as [->|Hne].
  - intros [= ->]. apply elem_of_cons. auto.
  - intros Hget. apply elem_of_cons. auto.
Qed.

Section RemovalProperties.

Context {cfg : Config}.

(** Every entry of the result was filed for a listed model, from the
    listing of its directory, or was there before. *)
Lemma models_loop_filed client running failed index model_names filed models
    entry :
  models_loop client running failed index model_names filed = Ok models →
  entry ∈ models →
  entry ∈ filed
  ∨ (entry.1 ∈ model_names
     ∧ ∃ entries,
         storage_get_dir client
           (DEFAULT_TUNA_MODEL_PATH ++ lit "/" ++ entry.1) = Ok entries
         ∧ entry.2 = model_record running failed index entry.1
                       (1 <? len entries)%Z).
Proof.
  revert filed. induction model_names as [|m rest IH]; intros filed Hloop Hin;
    simpl in Hloop.
  - injection Hloop as <-. auto.
  - apply bind_Ok_inv in Hloop as (filed' & Hstep & Hloop).
    apply models_step_inv in Hstep as (entries & Hdir & ->).
    destruct (IH _ Hloop Hin) as [Hset|(Hrest & Hrec)].
    + apply dict_set_elem in Hset as [->|Hfiled]; [|auto].
      right. split; [apply elem_of_cons; auto | eauto].
    + right. split; [apply elem_of_cons; auto | done].
Qed.

Lemma model_record_train_failed running failed index model_name completed :
  (∀ key info, index !! key = Some info →
     info.1 = Running ∨ info.1 = Stopped) →
  tuna_model_state (model_record running failed index model_name completed)
  = TrainFailed
  ↔ completed = false ∧ _generate_job_name model_name ∉ running.
Proof.
  intros Hindex. unfold model_record.
  destruct completed; cbn [negb andb].
  - destruct (bool_decide _).
    + destruct (index !! _) as [info|] eqn:Hget; cbn.
      * destruct (Hindex _ _ Hget) as [-> | ->];
          (split; [discriminate | intros [? _]; discriminate]).
      * split; [discriminate | intros [? _]; discriminate].
    + cbn. split; [discriminate | intros [? _]; discriminate].
  - destruct (bool_decide_reflect (_generate_job_name model_name ∉ running))
      as [Hidle|Hbusy]; cbn.
    + done.
    + split; [discriminate | intros [_ ?]; done].
Qed.

Lemma clear_failed_loop_calls (items : list (str * TunaModel)) (call : action) :
  call ∈ clear_failed_loop items ↔
  ∃ model_name model,
    (model_name, model) ∈ items
    ∧ tuna_model_state model = TrainFailed
    ∧ (call = StorageDeleteAll (_generate_model_output_path model_name)
       ∨ ∃ name, job_name model = Some name ∧ name ≠ []
                 ∧ call = JobRemove name).
Proof.
  induction items as [|[k r] rest IH].
  - simpl. split; [intros Hin; inversion Hin|].
    intros (? & ? & Hin & _). inversion Hin.
  - assert (Hrest : (∃ model_name model,
                       (model_name, model) ∈ rest
                       ∧ tuna_model_state model = TrainFailed
                       ∧ (call = StorageDeleteAll
                                   (_generate_model_output_path model_name)
                          ∨ ∃ name, job_name model = Some name ∧ name ≠ []
                                    ∧ call = JobRemove name)) →
                    ∃ model_name model,
                      (model_name, model) ∈ (k, r) :: rest
                      ∧ tuna_model_state model = TrainFailed
                      ∧ (call = StorageDeleteAll
                                  (_generate_model_output_path model_name)
                         ∨ ∃ name, job_name model = Some name ∧ name ≠ []
                                   ∧ call = JobRemove name)).
    { intros (k' & r' & Hin & Hrest). exists k', r'.
      split; [apply elem_of_cons; auto | done]. }
    cbn [clear_failed_loop].
    destruct (tuna_model_state r) eqn:Hstate;
      try (rewrite IH; split; [exact Hrest|];
           intros (k' & r' & Hin & Hst & Hcall);
           apply elem_of_cons in Hin as [[= -> ->]|Hin];
           [congruence | eauto 6]).
    rewrite elem_of_cons, elem_of_app, IH. split.
    + intros [->|[Hjob|Hin]].
      * exists k, r. split; [apply elem_of_cons; auto | auto].
      * exists k, r. split; [apply elem_of_cons; auto|]. split; [done|].
        right. destruct (job_name r) as [[|a name]|]; try (by inversion Hjob).
        apply elem_of_cons in Hjob as [->|Hjob]; [|inversion Hjob].
        eexists. split; [done|]. split; [discriminate | done].
      * auto.
    + intros (k' & r' & Hin & Hst & Hcall).
      apply elem_of_cons in Hin as [[= -> ->]|Hin]; [|right; right; eauto 6].
      destruct Hcall as [->|(name & Hname & Hne & ->)]; [auto|].
      right. left. rewrite Hname. destruct name as [|a name]; [done|].
      apply elem_of_cons. auto.
Qed.

(** X15.  [clear_failed_trainings] deletes the output directory of
    exactly the listed models whose directory has at most one entry and
    whose job is not running, and removes the job of those among them
    whose job is listed as failed; it makes no other call that changes
    the workspace. *)
Theorem clear_failed_trainings_calls client jobs inventory dir_infos :
  fetched client jobs inventory dir_infos →
  "-"%char ∈ TUNA_DEPLOYMENT_NAME_PREFIX →
  ∃ calls,
    clear_failed_trainings client = Ok calls
    ∧ ∀ call, call ∈ calls ↔
        ∃ model_name entries,
          model_name ∈ model_names_of dir_infos
          ∧ storage_get_dir client
              (DEFAULT_TUNA_MODEL_PATH ++ lit "/" ++ model_name) = Ok entries
          ∧ length entries ≤ 1
          ∧ (_generate_job_name model_name ∉ running_jobs jobs)
          ∧ (call = StorageDeleteAll (_generate_model_output_path model_name)
             ∨ (_generate_job_name model_name ∈ failed_jobs jobs
                ∧ _generate_job_name model_name ≠ []
                ∧ call = JobRemove (_generate_job_name model_name))).
Proof.
  intros Hfetched Hdash.
  destruct (get_models_map_fetched _ _ _ _ Hfetched Hdash)
    as (index & models & Hbuild & Hmap & Hloop).
  destruct Hfetched as (_ & _ & _ & Hdeps & _).
  unfold _build_shortened_model_name_deployment_map in Hbuild.
  rewrite Hdeps, bind_Ok in Hbuild.
  pose proof (λ key info, index_states inventory index key info Hbuild)
    as Hindex.
  exists (clear_failed_loop models). split.
  { unfold clear_failed_trainings. now rewrite Hmap, bind_Ok. }
  intros call. rewrite clear_failed_loop_calls. split.
  - intros (k & r & Hin & Hstate & Hcall).
    destruct (models_loop_filed _ _ _ _ _ _ _ _ Hloop Hin)
      as [Hnil|(Hlisted & entries & Hdir & Hrec)]; [inversion Hnil|].
    cbn [fst snd] in *. subst r.
    apply (model_record_train_failed _ _ _ _ _ Hindex) in Hstate
      as [Hcompleted Hidle].
    apply Z.ltb_ge in Hcompleted. unfold len in Hcompleted.
    exists k, entries. split; [done|]. split; [done|]. split; [lia|].
    split; [done|].
    destruct Hcall as [->|(name & Hname & Hne & ->)]; [auto|]. right.
    unfold model_record in Hname. rewrite (proj2 (Z.ltb_ge _ _)) in Hname
      by (unfold len; lia).
    cbn [negb andb] in Hname. rewrite bool_decide_eq_true_2 in Hname by done.
    cbn in Hname. destruct (decide (_ ∈ failed_jobs jobs)); [|discriminate].
    injection Hname as <-. done.
  - intros (m & entries & Hlisted & Hdir & Hlen & Hidle & Hcall).
    destruct (proj1 (models_loop_lookup _ _ _ _ _ _ _ m Hloop) Hlisted)
      as (entries' & Hdir' & Hget).
    rewrite Hdir in Hdir'. injection Hdir' as <-.
    apply dict_get_elem in Hget. eexists m, _. split; [exact Hget|].
    split.
    { apply (model_record_train_failed _ _ _ _ _ Hindex).
      split; [|done]. apply Z.ltb_ge. unfold len. lia. }
    destruct Hcall as [->|(Hfailed & Hne & ->)]; [auto|]. right.
    exists (_generate_job_name m). split; [|done].
    unfold model_record. rewrite (proj2 (Z.ltb_ge _ _)) by (unfold len; lia).
    cbn [negb andb]. rewrite bool_decide_eq_true_2 by done. cbn.
    now rewrite decide_True.
Qed.

Lemma deployment_remove_loop_entries (matching : list LeptonDeployment) :
  Forall (λ deployment, " "%char ∉ deployment_metadata_name deployment)
    matching →
  deployment_remove_loop (map deployment_entry matching)
  = map (λ deployment, DeploymentRemove (deployment_metadata_name deployment))
      matching.
Proof.
  induction 1 as [|d rest Hd Hrest IH]; simpl; [done|].
  now rewrite entry_name_read_back, IH.
Qed.

End RemovalProperties.

Section RemoveProperties.

Context {cfg : Config}.

Lemma job_delete_loop_calls (jobs : list LeptonJob) (job_name : str)
    (call : action) :
  call ∈ job_delete_loop jobs job_name ↔
  call = JobDelete job_name
  ∧ ∃ job, job ∈ jobs ∧ job_metadata_name job = job_name.
Proof.
  induction jobs as [|j rest IH]; simpl.
  - split; [intros Hin; inversion Hin|].
    intros (_ & job & Hin & _). inversion Hin.
  - destruct (decide (job_metadata_name j = job_name)) as [Hj|Hj].
    + rewrite elem_of_cons, IH. split.
      * intros [->|[-> _]];
          (split; [done | exists j; split; [apply elem_of_cons; auto | done]]).
      * intros [-> _]. auto.
    + rewrite IH. split.
      * intros (-> & job & Hin & Hname). split; [done|].
        exists job. split; [apply elem_of_cons; auto | done].
      * intros (-> & job & Hin & Hname). split; [done|].
        apply elem_of_cons in Hin as [->|Hin]; [done | eauto].
Qed.

(** [remove] on a model that the mapping holds. *)
Lemma remove_known client models line model_name model :
  _get_models_map client = Ok models →
  dict_get models model_name = Some model →
  remove client line model_name
  = (goes_on ←
       (if match deployments model with
           | Some listed => (0 <? len listed)%Z
           | None => false
           end
        then Ok (confirms line)
        else
          completed ← _model_train_completed client model_name;
          if completed : bool then Ok (confirms line) else Ok true);
     if negb goes_on then Ok ([], SysExit 0)
     else
       jobs ← job_list_all client;
       Ok (job_delete_loop jobs (_generate_job_name model_name)
             ++ match deployments model with
                | Some listed =>
                    if (0 <? len listed)%Z
                    then deployment_remove_loop listed else []
                | None => []
                end
             ++ [StorageDeleteAll (_generate_model_output_path model_name)],
           Returned)).
Proof.
  intros Hmap Hget. unfold remove. now rewrite Hmap, bind_Ok, Hget.
Qed.

(** X16.  [remove] of a name that is not a listed model changes nothing
    and exits with code 1, whatever the user would answer. *)
Theorem remove_unknown_model client jobs inventory dir_infos line model_name :
  fetched client jobs inventory dir_infos →
  "-"%char ∈ TUNA_DEPLOYMENT_NAME_PREFIX →
  model_name ∉ model_names_of dir_infos →
  remove client line model_name = Ok ([], SysExit 1).
Proof.
  intros Hfetched Hdash Hout.
  destruct (get_models_map_fetched _ _ _ _ Hfetched Hdash)
    as (index & models & _ & Hmap & Hloop).
  unfold remove. rewrite Hmap, bind_Ok.
  now rewrite (proj2 (models_loop_lookup _ _ _ _ _ _ _ model_name Hloop) Hout).
Qed.

(** X17.  A listed model whose directory has more than one entry is not
    removed without consent: unless the answer, stripped and in lower
    case, is "yes" or "y", [remove] changes nothing and exits with code
    0, whether the model is deployed, idle or being trained again. *)
Theorem remove_needs_consent client jobs inventory dir_infos line model_name
    entries :
  fetched client jobs inventory dir_infos →
  "-"%char ∈ TUNA_DEPLOYMENT_NAME_PREFIX →
  model_name ∈ model_names_of dir_infos →
  storage_get_dir client (DEFAULT_TUNA_MODEL_PATH ++ lit "/" ++ model_name)
    = Ok entries →
  1 < length entries →
  lower (strip line) ∉ [lit "yes"; lit "y"] →
  remove client line model_name = Ok ([], SysExit 0).
Proof.
  intros Hfetched Hdash Hlisted Hdir Hlen Hno.
  destruct (get_models_map_fetched _ _ _ _ Hfetched Hdash)
    as (index & models & _ & Hmap & Hloop).
  destruct (proj1 (models_loop_lookup _ _ _ _ _ _ _ model_name Hloop) Hlisted)
    as (entries' & _ & Hget).
  rewrite (remove_known _ _ _ _ _ Hmap Hget).
  assert (Hconfirms : confirms line = false)
    by (unfold confirms; now rewrite bool_decide_eq_false_2).
  destruct (match deployments _ with Some _ => _ | None => false end).
  - now rewrite Hconfirms, bind_Ok.
  - unfold _model_train_completed. rewrite Hdir, !bind_Ok.
    replace (1 <? len entries)%Z with true
      by (symmetry; apply Z.ltb_lt; unfold len; lia).
    now rewrite Hconfirms, bind_Ok.
Qed.

(** X18.  With consent, [remove] of a listed model that has more than one
    directory entry and no running job deletes every job that bears the
    derived job name, then removes the deployments filed under the
    shortened model name, by their names and in inventory order (the
    names having no space), and last deletes the output directory. *)
Theorem remove_trained_model client jobs inventory dir_infos line model_name
    entries :
  fetched client jobs inventory dir_infos →
  "-"%char ∈ TUNA_DEPLOYMENT_NAME_PREFIX →
  model_name ∈ model_names_of dir_infos →
  storage_get_dir client (DEFAULT_TUNA_MODEL_PATH ++ lit "/" ++ model_name)
    = Ok entries →
  1 < length entries →
  _generate_job_name model_name ∉ running_jobs jobs →
  lower (strip line) ∈ [lit "yes"; lit "y"] →
  let matching :=
    matching_deployments inventory (cur_shorten_model_name model_name) in
  Forall (λ deployment, " "%char ∉ deployment_metadata_name deployment)
    matching →
  remove client line model_name
  = Ok (job_delete_loop jobs (_generate_job_name model_name)
          ++ map (λ deployment,
                    DeploymentRemove (deployment_metadata_name deployment))
               matching
          ++ [StorageDeleteAll (_generate_model_output_path model_name)],
        Returned).
Proof.
  intros Hfetched Hdash Hlisted Hdir Hlen Hidle Hyes matching Hnames.
  destruct (trained_idle_lookup _ _ _ _ _ _ Hfetched Hdash Hlisted Hdir Hlen
              Hidle) as (models & Hmap & Hget).
  fold matching in Hget.
  rewrite (remove_known _ _ _ _ _ Hmap Hget).
  assert (Hconfirms : confirms line = true)
    by (unfold confirms; now rewrite bool_decide_eq_true_2).
  destruct Hfetched as (_ & _ & Hjobs & _).
  destruct matching as [|d rest] eqn:Hmatching.
  - cbn [absorb_all deployments].
    unfold _model_train_completed. rewrite Hdir, !bind_Ok.
    replace (1 <? len entries)%Z with true
      by (symmetry; apply Z.ltb_lt; unfold len; lia).
    rewrite Hconfirms, bind_Ok. cbn [negb]. now rewrite Hjobs, bind_Ok.
  - rewrite absorb_all_None by done. cbn [deployments fst snd].
    replace (0 <? len (map deployment_entry (d :: rest)))%Z with true
      by (symmetry; apply Z.ltb_lt; unfold len; simpl; lia).
    rewrite Hconfirms, bind_Ok. cbn [negb]. rewrite Hjobs, bind_Ok.
    now rewrite deployment_remove_loop_entries.
Qed.

(** X19.  A listed model whose directory has at most one entry is removed
    without any question: whatever the user would answer, [remove]
    deletes every job that bears the derived job name, a running one
    included, and then the output directory, and removes no
    deployment. *)
Theorem remove_untrained_model client jobs inventory dir_infos line model_name
    entries :
  fetched client jobs inventory dir_infos →
  "-"%char ∈ TUNA_DEPLOYMENT_NAME_PREFIX →
  model_name ∈ model_names_of dir_infos →
  storage_get_dir client (DEFAULT_TUNA_MODEL_PATH ++ lit "/" ++ model_name)
    = Ok entries →
  length entries ≤ 1 →
  remove client line model_name
  = Ok (job_delete_loop jobs (_generate_job_name model_name)
          ++ [StorageDeleteAll (_generate_model_output_path model_name)],
        Returned)
  ∧ (_generate_job_name model_name ∈ running_jobs jobs →
     JobDelete (_generate_job_name model_name)
     ∈ job_delete_loop jobs (_generate_job_name model_name)).
Proof.
  intros Hfetched Hdash Hlisted Hdir Hlen. split.
  - destruct (get_models_map_fetched _ _ _ _ Hfetched Hdash)
      as (index & models & _ & Hmap & Hloop).
    destruct (proj1 (models_loop_lookup _ _ _ _ _ _ _ model_name Hloop)
                Hlisted) as (entries' & Hdir' & Hget).
    rewrite Hdir in Hdir'. injection Hdir' as <-.
    rewrite (remove_known _ _ _ _ _ Hmap Hget).
    destruct Hfetched as (_ & _ & Hjobs & _).
    assert (Hnone : deployments
                      (model_record (running_jobs jobs) (failed_jobs jobs)
                         index model_name (1 <? len entries)%Z) = None).
    { unfold model_record.
      replace (1 <? len entries)%Z with false
        by (symmetry; apply Z.ltb_ge; unfold len; lia).
      cbn [negb andb]. now destruct (bool_decide _). }
    rewrite Hnone. unfold _model_train_completed. rewrite Hdir, !bind_Ok.
    replace (1 <? len entries)%Z with false
      by (symmetry; apply Z.ltb_ge; unfold len; lia).
    rewrite bind_Ok. cbn [negb]. now rewrite Hjobs, bind_Ok.
  - intros Hbusy. apply running_jobs_spec in Hbusy as (j & Hin & Hname & _).
    apply job_delete_loop_calls. eauto.
Qed.

End RemoveProperties.

(** ** Instances of the further properties on the sample inventories *)

Lemma sample_names_NoDup :
  NoDup (model_names_of
           [dir_entry "alpha"; dir_entry "beta"; file_entry "notes.txt";
            dir_entry "gamma"; dir_entry "delta"; dir_entry "epsilon"]).
Proof. apply (bool_decide_unpack _). vm_compute. exact I. Qed.

Lemma first_free_candidate_witness :
  ∃ k, k ≤ 5
    ∧ @_generate_model_deployment_name sample_config sample_client zero_rng
        (lit "delta")
      = Ok (new_name (lit "tuna-delta") k)
    ∧ (new_name (lit "tuna-delta") k ∉ deployment_names sample_deployments)
    ∧ (∀ j, j < k →
         new_name (lit "tuna-delta") j ∈ deployment_names sample_deployments).
Proof.
  apply (@first_free_candidate sample_config sample_client sample_deployments
           zero_rng (lit "delta") 5 eq_refl); [lia|].
  apply (bool_decide_unpack _). vm_compute. exact I.
Defined.

Lemma distinct_counters_distinct_names_witness :
  new_name (lit "tuna-delta") 9 ≠ new_name (lit "tuna-delta") 10.
Proof.
  apply (distinct_counters_distinct_names (lit "tuna-delta") 9 10); lia.
Defined.

Lemma fallback_out_of_reach_witness :
  ∃ counter, counter < 999
    ∧ @_generate_model_deployment_name sample_config sample_client zero_rng
        (lit "delta")
      = Ok (new_name (lit "tuna-delta") counter)
    ∧ (new_name (lit "tuna-delta") counter
         ∉ deployment_names sample_deployments).
Proof.
  apply (@fallback_out_of_reach sample_config sample_client sample_deployments
           zero_rng (lit "delta") eq_refl).
  simpl. lia.
Defined.

Lemma shortening_agrees_iff_witness :
  @shortened_model_name sample_config
    (new_name (lit "tuna-" ++ long_model_name) 3)
  = Ok (@cur_shorten_model_name sample_config long_model_name)
  ↔ length (lit "tuna-" ++ long_model_name) ≤ 32 ∨ 100 ≤ 3.
Proof.
  apply (@shortening_agrees_iff sample_config long_model_name 3);
    [lia | simpl; lia].
Defined.

Lemma index_raises_on_dashless_name_witness :
  @_build_shortened_model_name_deployment_map dashless_config dashless_client
  = Raise ValueError
  ∧ @_get_models_map dashless_config dashless_client = Raise ValueError.
Proof.
  destruct (@index_raises_on_dashless_name dashless_config dashless_client
              [deployment "tuna-delta-0" DepReady;
               deployment "tunafish" DepReady] eq_refl)
    as (Hiff & _ & Hmap).
  assert (Hbad : ∃ d, d ∈ [deployment "tuna-delta-0" DepReady;
                           deployment "tunafish" DepReady]
                   ∧ contains (@TUNA_DEPLOYMENT_NAME_PREFIX dashless_config)
                       (deployment_metadata_name d) = true
                   ∧ "-"%char ∉ deployment_metadata_name d).
  { exists (deployment "tunafish" DepReady).
    split; [repeat constructor|]. split; [reflexivity|].
    apply (bool_decide_unpack _). vm_compute. exact I. }
  split.
  - apply Hiff. exact Hbad.
  - apply Hmap; [exact Hbad | reflexivity | reflexivity |].
    exists sample_jobs. reflexivity.
Defined.

Lemma models_in_listing_order_witness :
  ∃ models,
    @_get_models_map sample_config sample_client = Ok models
    ∧ map fst models
      = [lit "alpha"; lit "beta"; lit "gamma"; lit "delta"; lit "epsilon"].
Proof.
  destruct (@models_in_listing_order sample_config sample_client sample_jobs
              sample_deployments _ sample_fetched sample_prefix_has_dash
              sample_names_NoDup) as (models & Hmap & Hkeys & _).
  exists models. split; [exact Hmap | exact Hkeys].
Defined.

Lemma trained_model_follows_deployments_witness :
  ∃ models,
    @_get_models_map sample_config sample_client = Ok models
    ∧ dict_get models (lit "delta")
      = Some {| folder_name := lit "delta";
                tuna_model_state := Running;
                deployments := Some [lit "tuna-delta-0 (Not Ready)";
                                     lit "tuna-delta-1 (Starting)"];
                job_name := None |}.
Proof.
  destruct (@trained_model_follows_deployments sample_config sample_client
              sample_jobs sample_deployments _ (lit "delta")
              [file_entry "delta_info.json"; dir_entry "checkpoint"]
              sample_fetched sample_prefix_has_dash)
    as (models & Hmap & Hget).
  - vm_compute. repeat constructor.
  - reflexivity.
  - simpl. lia.
  - apply (bool_decide_unpack _). vm_compute. exact I.
  - exists models. split; [exact Hmap|]. rewrite Hget. reflexivity.
Defined.

Lemma generated_deployment_is_found_witness :
  ∃ models model listed,
    @_get_models_map sample_config sample_client = Ok models
    ∧ dict_get models (lit "delta") = Some model
    ∧ deployments model = Some listed
    ∧ lit "tuna-delta-1 (Starting)" ∈ listed
    ∧ tuna_model_state model = Running.
Proof.
  destruct (@generated_deployment_is_found sample_config sample_client
              sample_jobs sample_deployments _ (lit "delta")
              [file_entry "delta_info.json"; dir_entry "checkpoint"]
              1 (deployment "tuna-delta-1" DepStarting)
              sample_fetched sample_prefix_has_dash)
    as (models & model & listed & Hmap & Hget & Hdeps & Hin & _ & Hrun).
  - vm_compute. repeat constructor.
  - reflexivity.
  - simpl. lia.
  - apply (bool_decide_unpack _). vm_compute. exact I.
  - simpl. lia.
  - lia.
  - unfold sample_deployments. repeat constructor.
  - reflexivity.
  - exists models, model, listed.
    split; [exact Hmap|]. split; [exact Hget|]. split; [exact Hdeps|].
    split; [exact Hin | exact (Hrun eq_refl)].
Defined.

Lemma record_fields_follow_state_witness :
  ∃ listed,
    Some [lit "tuna-delta-0 (Not Ready)"; lit "tuna-delta-1 (Starting)"]
    = Some listed
    ∧ listed ≠ [].
Proof.
  destruct (@record_fields_follow_state sample_config sample_client
              sample_models (lit "delta")
              {| folder_name := lit "delta"; tuna_model_state := Running;
                 deployments := Some [lit "tuna-delta-0 (Not Ready)";
                                      lit "tuna-delta-1 (Starting)"];
                 job_name := None |})
    as (_ & _ & Hlisted).
  - vm_compute. reflexivity.
  - unfold sample_models. repeat constructor.
  - exact Hlisted.
Defined.

Lemma failed_listing_fails_aggregation_witness :
  ∃ e, @_get_models_map sample_config broken_client = Raise e.
Proof.
  apply (@failed_listing_fails_aggregation sample_config broken_client
           [dir_entry "beta"; dir_entry "ghost"] (lit "ghost")
           (RemoteError "no such directory")).
  - reflexivity.
  - reflexivity.
  - reflexivity.
  - vm_compute. repeat constructor.
  - reflexivity.
Defined.

Lemma params_env_hides_values_witness :
  params_env [lit "HF_TOKEN=hf_abc=def"; lit "WANDB_KEY=123"]
  = [lit "HF_TOKEN=<---secret--->"; lit "WANDB_KEY=<---secret--->"].
Proof.
  apply (params_env_hides_values
           [(lit "HF_TOKEN", lit "hf_abc=def"); (lit "WANDB_KEY", lit "123")]).
  repeat constructor; apply (bool_decide_unpack _); vm_compute; exact I.
Defined.

Lemma clear_failed_trainings_calls_witness :
  ∃ calls,
    @clear_failed_trainings sample_config sample_client = Ok calls
    ∧ StorageDeleteAll (lit "/tuna/model/gamma") ∈ calls
    ∧ JobRemove (lit "train-job-gamma") ∈ calls.
Proof.
  destruct (@clear_failed_trainings_calls sample_config sample_client
              sample_jobs sample_deployments _ sample_fetched
              sample_prefix_has_dash) as (calls & Hrun & Hcalls).
  assert (Hgamma : ∀ call,
            call = StorageDeleteAll (lit "/tuna/model/gamma")
            ∨ call = JobRemove (lit "train-job-gamma") →
            call ∈ calls).
  { intros call Hcall. apply Hcalls.
    exists (lit "gamma"), [file_entry "gamma_info.json"].
    split; [vm_compute; repeat constructor|].
    split; [reflexivity|]. split; [simpl; lia|].
    split; [apply (bool_decide_unpack _); vm_compute; exact I|].
    destruct Hcall as [->| ->]; [left; reflexivity|]. right.
    split; [apply (bool_decide_unpack _); vm_compute; exact I|].
    split; [discriminate | reflexivity]. }
  exists calls. split; [exact Hrun|]. split; apply Hgamma; auto.
Defined.

Lemma remove_unknown_model_witness :
  @remove sample_config sample_client (lit "yes") (lit "zeta")
  = Ok ([], SysExit 1).
Proof.
  apply (@remove_unknown_model sample_config sample_client sample_jobs
           sample_deployments _ (lit "yes") (lit "zeta")
           sample_fetched sample_prefix_has_dash).
  apply (bool_decide_unpack _). vm_compute. exact I.
Defined.

Lemma remove_needs_consent_witness :
  @remove sample_config sample_client (lit "yep") (lit "delta")
  = Ok ([], SysExit 0).
Proof.
  apply (@remove_needs_consent sample_config sample_client sample_jobs
           sample_deployments _ (lit "yep") (lit "delta")
           [file_entry "delta_info.json"; dir_entry "checkpoint"]
           sample_fetched sample_prefix_has_dash).
  - vm_compute. repeat constructor.
  - reflexivity.
  - simpl. lia.
  - apply (bool_decide_unpack _). vm_compute. exact I.
Defined.

Lemma remove_trained_model_witness :
  @remove sample_config sample_client (lit " Yes ") (lit "delta")
  = Ok ([JobDelete (lit "train-job-delta");
         DeploymentRemove (lit "tuna-delta-0");
         DeploymentRemove (lit "tuna-delta-1");
         StorageDeleteAll (lit "/tuna/model/delta")],
        Returned).
Proof.
  apply (@remove_trained_model sample_config sample_client sample_jobs
           sample_deployments _ (lit " Yes ") (lit "delta")
           [file_entry "delta_info.json"; dir_entry "checkpoint"]
           sample_fetched sample_prefix_has_dash).
  - vm_compute. repeat constructor.
  - reflexivity.
  - simpl. lia.
  - apply (bool_decide_unpack _). vm_compute. exact I.
  - vm_compute. repeat constructor.
  - apply (bool_decide_unpack _). vm_compute. exact I.
Defined.

Lemma remove_untrained_model_witness :
  @remove sample_config sample_client (lit "no") (lit "alpha")
  = Ok ([JobDelete (lit "train-job-alpha");
         StorageDeleteAll (lit "/tuna/model/alpha")],
        Returned).
Proof.
  apply (@remove_untrained_model sample_config sample_client sample_jobs
           sample_deployments _ (lit "no") (lit "alpha")
           [file_entry "alpha_info.json"]
           sample_fetched sample_prefix_has_dash).
  - vm_compute. repeat constructor.
  - reflexivity.
  - simpl. lia.
Defined.

Lemma train_name_validator_bounds_witness :
  @train_name_validator sample_config sample_check_name_regex (lit "alpha")
  = Accepted (lit "alpha")
  ∧ length (@_generate_job_name sample_config (lit "alpha")) ≤ 36
  ∧ length (@TUNA_DEPLOYMENT_NAME_PREFIX sample_config ++ lit "alpha") ≤ 36.
Proof.
  destruct (@train_name_validator_bounds sample_config
              sample_check_name_regex (lit "alpha")) as [Hiff Hbounds].
  assert (Haccepted : @train_name_validator sample_config
                        sample_check_name_regex (lit "alpha")
                      = Accepted (lit "alpha"))
    by (apply Hiff; split; [reflexivity | simpl; lia]).
  split; [exact Haccepted|]. exact (proj2 (Hbounds _ Haccepted)).
Defined.
